(** * jadio-podcast: the feed assembly of [jadio_feeder/podcast.py]

    A shallow embedding of the module [jadio_feeder.podcast] and the
    properties of its feed assembly: enclosure resolution, item and channel
    mapping, sort-key selection, sorting, duplicate suppression and the
    publish-date formatting.

    Python values are embedded as follows.
    - [None]-able attributes are [option]s; attributes that are compared or
      sorted dynamically go through the value type [Value.value].
    - Exceptions are the constructors of [Py.exn]; a computation that can raise
      lives in the monad [Py.result].
    - The file system is an explicit, read-only association list.
    - Library calls ([sorted], [Path.suffix], [os.path.relpath],
      [urllib.parse.quote], [datetime.strftime], [pytz.timezone]) are modelled
      by their documented behaviour next to the code that calls them. *)

From Stdlib Require Import ZArith List String Ascii Bool Lia.
From Stdlib Require Import DecimalString Permutation Sorted QArith OrderedTypeEx.
Import ListNotations.

Open Scope string_scope.
Open Scope Z_scope.

(* ===================================================================== *)
(** * Python values, exceptions and the error monad *)
(* ===================================================================== *)

Module Py.

(** The exception classes this module raises or lets through. *)
Inductive exn : Type :=
| FileNotFoundError (msg : string)
| ValueError (msg : string)
| OverflowError (msg : string)
| IndexError              (* "list index out of range" *)
| TypeError               (* unorderable operands of [<] *)
| UnknownTimeZoneError (zone : string)
| MutagenError.           (* the media reader rejects the file *)

Inductive result (A : Type) : Type :=
| Ok (a : A)
| Raise (e : exn).
Arguments Ok {A} a.
Arguments Raise {A} e.

Definition bind {A B : Type} (m : result A) (k : A -> result B) : result B :=
  match m with
  | Ok a => k a
  | Raise e => Raise e
  end.

Definition is_ok {A : Type} (m : result A) : bool :=
  match m with Ok _ => true | Raise _ => false end.

(** [str(n)] for an [int]. *)
Definition str_int (n : Z) : string := NilZero.string_of_int (Z.to_int n).

(** [int | float]; a finite float is represented by the rational it
    denotes, only its zero test and its truncation are used; the other
    floats are NaN and the two infinities. *)
Inductive number : Type :=
| NInt (n : Z)
| NFloat (q : Q)
| NNan
| NInf (negative : bool).

(** [bool(x)] for a number: only a zero is falsy. *)
Definition number_truthy (x : number) : bool :=
  match x with
  | NInt n => negb (n =? 0)
  | NFloat q => negb (Qnum q =? 0)
  | NNan => true
  | NInf _ => true
  end.

(** [int(x)]: truncation towards zero; NaN and the infinities have no
    integer. *)
Definition int_of_number (x : number) : result Z :=
  match x with
  | NInt n => Ok n
  | NFloat q => Ok (Z.quot (Qnum q) (Z.pos (Qden q)))
  | NNan => Raise (ValueError "cannot convert float NaN to integer")
  | NInf _ => Raise (OverflowError "cannot convert float infinity to integer")
  end.

(** [bool(s)] for an optional string: [None] and [""] are falsy. *)
Definition str_truthy (s : option string) : bool :=
  match s with
  | None => false
  | Some s => negb (s =? "")%string
  end.

(** [a or b] on optional strings. *)
Definition or_str (a b : option string) : option string :=
  if str_truthy a then a else b.

(** [xs[i]] for [i] in {0, -1}, the only indices this module uses. *)
Definition index_first {A : Type} (xs : list A) : result A :=
  match xs with
  | [] => Raise IndexError
  | x :: _ => Ok x
  end.

Definition index_last {A : Type} (xs : list A) : result A :=
  index_first (rev xs).

End Py.

Notation "x <- m ;; k" := (Py.bind m (fun x => k))
  (at level 61, m at next level, right associativity).
Notation "' p <- m ;; k" := (Py.bind m (fun p => k))
  (at level 61, p pattern, m at next level, right associativity).

(* ===================================================================== *)
(** * [datetime.datetime], [pytz] and [strftime] *)
(* ===================================================================== *)

Module Datetime.

(** A [tzinfo] with a fixed offset, in seconds east of UTC. *)
Record tzinfo : Type := mk_tzinfo {
  tzname : string;
  utcoffset : Z
}.

Record datetime : Type := mk_datetime {
  year : Z;
  month : Z;
  day : Z;
  hour : Z;
  minute : Z;
  second : Z;
  microsecond : Z;
  tz : option tzinfo
}.

(** [datetime.replace(tzinfo=z)]: every wall-clock field is kept. *)
Definition replace_tzinfo (d : datetime) (z : tzinfo) : datetime :=
  {| year := year d; month := month d; day := day d;
     hour := hour d; minute := minute d; second := second d;
     microsecond := microsecond d; tz := Some z |}.


Definition is_leap (y : Z) : bool :=
  (y mod 4 =? 0) && (negb (y mod 100 =? 0) || (y mod 400 =? 0)).

Definition days_before_year (y : Z) : Z :=
  let y1 := y - 1 in y1 * 365 + y1 / 4 - y1 / 100 + y1 / 400.

Definition days_before_month (y m : Z) : Z :=
  let cumulative := [0; 31; 59; 90; 120; 151; 181; 212; 243; 273; 304; 334] in
  nth (Z.to_nat (m - 1)) cumulative 0
  + (if (2 <? m) && is_leap y then 1 else 0).

(** [date.toordinal()]: 1 for 0001-01-01. *)
Definition toordinal (d : datetime) : Z :=
  days_before_year (year d) + days_before_month (year d) (month d) + day d.

(** [date.weekday()]: 0 is Monday. *)
Definition weekday (d : datetime) : Z := (toordinal d + 6) mod 7.

(** Microseconds of the wall clock since 0001-01-01T00:00:00. *)
Definition wall_micros (d : datetime) : Z :=
  (((toordinal d - 1) * 24 + hour d) * 60 + minute d) * 60 * 1000000
  + second d * 1000000 + microsecond d.

(** The instant an aware datetime denotes, in microseconds of UTC. *)
Definition instant (d : datetime) : option Z :=
  match tz d with
  | Some z => Some (wall_micros d - utcoffset z * 1000000)
  | None => None
  end.

Definition fields (d : datetime) : list Z :=
  [year d; month d; day d; hour d; minute d; second d; microsecond d].

Fixpoint lex_compare (a b : list Z) : comparison :=
  match a, b with
  | [], [] => Eq
  | [], _ :: _ => Lt
  | _ :: _, [] => Gt
  | x :: a', y :: b' =>
      match x ?= y with
      | Eq => lex_compare a' b'
      | c => c
      end
  end.

(** [d1 == d2]: naive datetimes compare their fields, aware ones the
    instants they denote; a naive and an aware datetime are never equal. *)
Definition eqb (d1 d2 : datetime) : bool :=
  match instant d1, instant d2 with
  | None, None =>
      match lex_compare (fields d1) (fields d2) with Eq => true | _ => false end
  | Some i1, Some i2 => i1 =? i2
  | _, _ => false
  end.

(** [d1 < d2]; ordering a naive against an aware datetime raises. *)
Definition ltb (d1 d2 : datetime) : Py.result bool :=
  match instant d1, instant d2 with
  | None, None =>
      Py.Ok match lex_compare (fields d1) (fields d2) with Lt => true | _ => false end
  | Some i1, Some i2 => Py.Ok (i1 <? i2)
  | _, _ => Py.Raise Py.TypeError
  end.

(** ** [pytz.timezone]

    [pytz.timezone(zone)] returns the zone object itself; attached to a
    datetime by [replace] (not by [localize]) it reports the first offset of
    its table, which for Asia/Tokyo is the local mean time LMT+9:19. Of the
    zone database only the default zone of this module and UTC are
    tabulated here; [_datetime_to_pub_data] is never called with another. *)
Definition pytz_timezone (zone : string) : Py.result tzinfo :=
  if (zone =? "Asia/Tokyo")%string then
    Py.Ok {| tzname := "LMT"; utcoffset := 9 * 3600 + 19 * 60 |}
  else if (zone =? "UTC")%string then
    Py.Ok {| tzname := "UTC"; utcoffset := 0 |}
  else Py.Raise (Py.UnknownTimeZoneError zone).

(** ** [strftime] for the directives of the publish-date format *)

Definition pad2 (n : Z) : string :=
  if n <? 10 then "0" ++ Py.str_int n else Py.str_int n.

(** [%a] in the C locale. *)
Definition day_abbr (w : Z) : string :=
  nth (Z.to_nat w) ["Mon"; "Tue"; "Wed"; "Thu"; "Fri"; "Sat"; "Sun"] "".

(** [%b] in the C locale. *)
Definition month_abbr (m : Z) : string :=
  nth (Z.to_nat (m - 1))
    ["Jan"; "Feb"; "Mar"; "Apr"; "May"; "Jun";
     "Jul"; "Aug"; "Sep"; "Oct"; "Nov"; "Dec"] "".

(** [%z]: empty for a naive datetime, else [+HHMM] (with [SS] when the
    offset has seconds). *)
Definition format_z (d : datetime) : string :=
  match tz d with
  | None => ""
  | Some z =>
      let off := utcoffset z in
      let a := Z.abs off in
      (if off <? 0 then "-" else "+")
      ++ pad2 (a / 3600) ++ pad2 ((a mod 3600) / 60)
      ++ (if a mod 60 =? 0 then "" else pad2 (a mod 60))
  end.

(** [d.strftime("%a, %d %b %Y %H:%M:%S")]; [%Y] is the plain decimal
    year, which is its four digits from year 1000 on. *)
Definition strftime_wall_clock (d : datetime) : string :=
  day_abbr (weekday d) ++ ", " ++ pad2 (day d) ++ " " ++ month_abbr (month d)
  ++ " " ++ Py.str_int (year d) ++ " "
  ++ pad2 (hour d) ++ ":" ++ pad2 (minute d) ++ ":" ++ pad2 (second d).

(** [d.strftime("%a, %d %b %Y %H:%M:%S %z")]. *)
Definition strftime_rfc822 (d : datetime) : string :=
  strftime_wall_clock d ++ " " ++ format_z d.

End Datetime.

(* ===================================================================== *)
(** * Dynamically typed attribute values: [==], [!=] and [<] *)
(* ===================================================================== *)

Module Value.

(** The values the attributes [datetime] and [episode_id] of a program
    can hold. *)
Inductive value : Type :=
| VNone
| VInt (n : Z)
| VStr (s : string)
| VDatetime (d : Datetime.datetime).

(** [a == b]; values of different types are unequal, nothing raises. *)
Definition eqb (a b : value) : bool :=
  match a, b with
  | VNone, VNone => true
  | VInt x, VInt y => x =? y
  | VStr x, VStr y => (x =? y)%string
  | VDatetime x, VDatetime y => Datetime.eqb x y
  | _, _ => false
  end.

(** [a != b]. *)
Definition neb (a b : value) : bool := negb (eqb a b).

(** [a < b]; [None] and values of different types are unorderable. *)
Definition ltb (a b : value) : Py.result bool :=
  match a, b with
  | VInt x, VInt y => Py.Ok (x <? y)
  | VStr x, VStr y => Py.Ok (String.ltb x y)
  | VDatetime x, VDatetime y => Datetime.ltb x y
  | _, _ => Py.Raise Py.TypeError
  end.

Definition of_datetime (d : option Datetime.datetime) : value :=
  match d with
  | None => VNone
  | Some d => VDatetime d
  end.

End Value.

(* ===================================================================== *)
(** * Paths, the file system and URL quoting *)
(* ===================================================================== *)

Module Path.

(** An absolute path, as the list of its components below the root. *)
Definition path : Type := list string.

Definition eqb (p q : path) : bool :=
  if list_eq_dec string_dec p q then true else false.

(** [str(path)]. *)
Definition str (p : path) : string :=
  match p with
  | [] => "/"
  | _ => String.concat "" (map (fun c => "/" ++ c) p)
  end.

(** The pieces of a string between its slashes. *)
Fixpoint split_slash (s : string) : list string :=
  match s with
  | EmptyString => [EmptyString]
  | String c s' =>
      if Ascii.eqb c "/" then EmptyString :: split_slash s'
      else
        match split_slash s' with
        | piece :: pieces => String c piece :: pieces
        | [] => [String c EmptyString]
        end
  end.

(** The components a part contributes: its pieces without the empty ones
    and the single dots. *)
Definition components (part : string) : list string :=
  filter (fun c => negb (c =? "")%string && negb (c =? ".")%string)%bool
    (split_slash part).

(** [path.joinpath(part, ...)]: every part is split into its components; a
    part that starts with a slash is absolute and replaces what came before
    it. *)
Definition joinpath (p : path) (parts : list string) : path :=
  fold_left
    (fun (acc : path) (part : string) =>
       if prefix "/" part then components part
       else (acc ++ components part)%list)
    parts p.

(** [path.name]. *)
Definition name (p : path) : string := last p "".

(** [path.parent]. *)
Definition parent (p : path) : path := removelast p.

(** [s.rfind(".")]. *)
Fixpoint rfind_dot (s : string) : option nat :=
  match s with
  | EmptyString => None
  | String c s' =>
      match rfind_dot s' with
      | Some i => Some (S i)
      | None => if Ascii.eqb c "." then Some O else None
      end
  end.

(** [path.suffix]: the last dot of the name starts the suffix, unless it is
    the first or the last character of the name. *)
Definition suffix (p : path) : string :=
  let n := name p in
  match rfind_dot n with
  | Some i =>
      if (Nat.ltb 0 i && Nat.ltb i (String.length n - 1))%bool
      then substring i (String.length n - i) n
      else ""
  | None => ""
  end.

(** [os.path.relpath(path, start)] on absolute paths. *)
Fixpoint relpath_parts (p start : path) : list string :=
  match p, start with
  | c :: p', d :: start' =>
      if string_dec c d then relpath_parts p' start'
      else (map (fun _ => "..") start ++ p)%list
  | _, _ => (map (fun _ => "..") start ++ p)%list
  end.

Definition relpath (p start : path) : string :=
  match relpath_parts p start with
  | [] => "."
  | parts => String.concat "/" parts
  end.

End Path.

Module Urllib.

Definition hex_digit (n : N) : ascii :=
  ascii_of_N (if (n <? 10)%N then 48 + n else 55 + n)%N.

(** The characters [quote] never escapes, with its default [safe="/"]. *)
Definition is_safe (c : ascii) : bool :=
  let n := N_of_ascii c in
  ((48 <=? n) && (n <=? 57) || (65 <=? n) && (n <=? 90)
   || (97 <=? n) && (n <=? 122)
   || (n =? 95) || (n =? 46) || (n =? 45) || (n =? 126) || (n =? 47))%N%bool.

(** [urllib.parse.quote(s)] on the bytes of [s]. *)
Fixpoint quote (s : string) : string :=
  match s with
  | EmptyString => EmptyString
  | String c s' =>
      if is_safe c then String c (quote s')
      else
        let n := N_of_ascii c in
        String "%" (String (hex_digit (n / 16)) (String (hex_digit (n mod 16))
          (quote s')))
  end.

End Urllib.

Module Fs.

(** The container formats the media readers tell apart. *)
Inductive container : Type := MP3 | MP4 | OtherContainer.

(** A regular file: its size in bytes, the container its bytes hold and
    the playback length in seconds recorded in it. *)
Record file : Type := mk_file {
  f_path : Path.path;
  f_size : Z;
  f_container : container;
  f_length : Q
}.

(** The files of the media tree, in directory-listing order. The tree holds
    regular files only: directories are implicit, and a link whose target is
    missing (which a scan would list although it does not exist) is not
    part of it. *)
Definition t : Type := list file.

(** [path.exists()]. *)
Definition exists_ (fs : t) (p : Path.path) : bool :=
  existsb (fun f => Path.eqb (f_path f) p) fs.

Definition lookup (fs : t) (p : Path.path) : option file :=
  find (fun f => Path.eqb (f_path f) p) fs.

(** [os.path.getsize(path)]. *)
Definition getsize (fs : t) (p : Path.path) : Py.result Z :=
  match lookup fs p with
  | Some f => Py.Ok (f_size f)
  | None => Py.Raise (Py.FileNotFoundError (Path.str p))
  end.

(** [fnmatch(name, "media.*")]. *)
Definition matches_media (name : string) : bool := prefix "media." name.

(** [list(dir.glob("media.*"))]: the matching children of [dir], in
    listing order. *)
Definition glob_media (fs : t) (dir : Path.path) : list Path.path :=
  map f_path
    (filter (fun f => Path.eqb (Path.parent (f_path f)) dir
                      && matches_media (Path.name (f_path f)))%bool fs).

End Fs.

(* ===================================================================== *)
(** * The builtin [sorted] *)
(* ===================================================================== *)

Module Builtins.
Import Py.

Section Sort.
Context {A : Type}.

(** Insertion of a decorated element in front of a sorted run: it passes
    the elements strictly below it and stops at the first that is not,
    so it stays in front of the elements with an equal key. *)
Fixpoint insert (kx : Value.value * A) (run : list (Value.value * A))
  : result (list (Value.value * A)) :=
  match run with
  | [] => Ok [kx]
  | ky :: run' =>
      below <- Value.ltb (fst ky) (fst kx) ;;
      if below then (r <- insert kx run' ;; Ok (ky :: r))
      else Ok (kx :: run)
  end.

(** The stable ascending sort [list.sort] performs, with [<] as its only
    comparison; an unorderable pair of keys raises [TypeError]. *)
Fixpoint stable_sort (l : list (Value.value * A))
  : result (list (Value.value * A)) :=
  match l with
  | [] => Ok []
  | kx :: l' => s <- stable_sort l' ;; insert kx s
  end.

(** [sorted(l, key=key, reverse=reverse)]: the keys are computed once,
    and a reverse sort reverses the list, sorts it ascending and reverses
    the result, which keeps elements with equal keys in input order. *)
Definition sorted (key : A -> Value.value) (reverse : bool) (l : list A)
  : result (list A) :=
  let decorated := map (fun x => (key x, x)) l in
  s <- stable_sort (if reverse then rev decorated else decorated) ;;
  Ok (map snd (if reverse then rev s else s)).

End Sort.

End Builtins.

(* ===================================================================== *)
(** * The collaborators: [jadio.Program], [bson.ObjectId], [mutagen], [feedgen] *)
(* ===================================================================== *)

(** [bson.ObjectId]: twelve bytes, of which only the 24 hexadecimal digits of
    [str(oid)] are observed. *)
Record ObjectId : Type := mk_ObjectId { oid_hex : string }.

Definition str_ObjectId (oid : ObjectId) : string := oid_hex oid.

Module Program.

(** [int | str], the type of an episode id. *)
Inductive id_value : Type :=
| IdInt (n : Z)
| IdStr (s : string).

(** The attributes of [jadio.Program] this module reads. *)
Record t : Type := mk {
  platform_id : string;
  station_id : string;
  name : string;
  url : option string;
  description : option string;
  information : option string;
  copyright : option string;
  episode_id : option id_value;
  episode_name : option string;
  datetime : option Datetime.datetime;
  duration : option Py.number;
  image_url : option string;
  is_video : bool
}.

(** [str(program.episode_id)]. *)
Definition str_episode_id (e : option id_value) : string :=
  match e with
  | None => "None"
  | Some (IdInt n) => Py.str_int n
  | Some (IdStr s) => s
  end.

Definition value_of_id (e : option id_value) : Value.value :=
  match e with
  | None => Value.VNone
  | Some (IdInt n) => Value.VInt n
  | Some (IdStr s) => Value.VStr s
  end.

(** [program.datetime] and [program.episode_id] as dynamic values. *)
Definition datetime_value (p : t) : Value.value := Value.of_datetime (datetime p).
Definition episode_id_value (p : t) : Value.value := value_of_id (episode_id p).

(** [getattr(program, sort_by)] for the two attribute names [create]
    sorts by. *)
Definition getattr (p : t) (attr : string) : Value.value :=
  if (attr =? "episode_id")%string then episode_id_value p
  else datetime_value p.

End Program.

(** What the module reads of the outside: the media tree and
    [urllib.parse.urljoin]. *)
Record world : Type := mk_world {
  fs : Fs.t;
  urljoin : string -> string -> string
}.

Module Mutagen.
Import Py.

(** [reader(path).info.length]: the reader for container [c] accepts the
    files that hold that container and reports their length as a float. *)
Definition info_length (w : world) (c : Fs.container) (p : Path.path)
  : result number :=
  match Fs.lookup (fs w) p with
  | Some f =>
      match c, Fs.f_container f with
      | Fs.MP3, Fs.MP3 | Fs.MP4, Fs.MP4 => Ok (NFloat (Fs.f_length f))
      | _, _ => Raise MutagenError
      end
  | None => Raise MutagenError
  end.

End Mutagen.

(* ===================================================================== *)
(** * [jadio_feeder/podcast.py] *)
(* ===================================================================== *)

Import Py.

Definition RADIKO_LINK : string := "https://radiko.jp/".

Definition _media_path_to_duration (w : world) (path : Path.path) : result number :=
  if negb (Fs.exists_ (fs w) path) then
    Raise (FileNotFoundError (Path.str path ++ " is not found"))
  else if (".mp3" =? Path.suffix path)%string then
    Mutagen.info_length w Fs.MP3 path
  else if (".m4a" =? Path.suffix path)%string then
    Mutagen.info_length w Fs.MP4 path
  else if (".mp4" =? Path.suffix path)%string then
    Mutagen.info_length w Fs.MP4 path
  else
    Raise (ValueError (Path.suffix path ++ " is not supported file type")).

Definition _datetime_to_pub_data (datetime : Datetime.datetime) (zone : string)
  : result string :=
  z <- Datetime.pytz_timezone zone ;;
  let datetime := Datetime.replace_tzinfo datetime z in
  Ok (Datetime.strftime_rfc822 datetime).

(** The default value of the parameter [zone]. *)
Definition default_zone : string := "Asia/Tokyo".

Definition _path_to_enclosure_url (w : world) (path path_root : Path.path)
  (base_url : string) : string :=
  let url := Path.relpath path path_root in
  let url := Urllib.quote url in
  urljoin w base_url ("media/" ++ url).

Definition _path_to_enclosure_length (w : world) (path : Path.path) : result Z :=
  if negb (Fs.exists_ (fs w) path) then
    Raise (FileNotFoundError (Path.str path ++ " is not found"))
  else Fs.getsize (fs w) path.

Definition _path_to_enclosure_type (path : Path.path) (is_video : bool)
  : result string :=
  if (".mp3" =? Path.suffix path)%string then Ok "audio/mpeg"
  else if (".m4a" =? Path.suffix path)%string then Ok "audio/x-m4a"
  else if (".mp4" =? Path.suffix path)%string then
    Ok (if is_video then "video/mp4" else "audio/x-m4a")
  else if (".mov" =? Path.suffix path)%string then Ok "video/quicktime"
  else Raise (ValueError (Path.str path ++ " is unsupported file type")).

Module Enclosure.

Record t : Type := mk {
  url : string;
  length : option Z;
  type : option string
}.

Definition from_path (w : world) (path : Path.path) (is_video : bool)
  (base_url : string) (media_root : Path.path) : result t :=
  let url := _path_to_enclosure_url w path media_root base_url in
  length <- _path_to_enclosure_length w path ;;
  type <- _path_to_enclosure_type path is_video ;;
  Ok {| url := url; length := Some length; type := Some type |}.

End Enclosure.

Module EpisodeType.
Inductive t : Type := FULL | TRAILER | BONUS.
Definition value (e : t) : string :=
  match e with FULL => "full" | TRAILER => "trailer" | BONUS => "bonus" end.
End EpisodeType.

Module ItunesCategory.
Record t : Type := mk { cat : option string; sub : option string }.
End ItunesCategory.

Module ItunesType.
Inductive t : Type := EPISODIC | SERIAL.
Definition value (e : t) : string :=
  match e with EPISODIC => "episodic" | SERIAL => "serial" end.
End ItunesType.

(** [feedgen.entry.FeedEntry] with its podcast extension: the tags an entry
    has been given. *)
Module FeedEntry.
Record t : Type := mk {
  title : option string;
  enclosure_url : string;
  enclosure_length : option Z;
  enclosure_type : option string;
  guid : string;
  guid_permalink : bool;
  pubDate : option string;
  description : option string;
  itunes_duration : option Z;
  link_href : string;
  itunes_image : option string;
  itunes_explicit : string;
  itunes_title : option string;
  itunes_episode : option Z;
  itunes_season : option Z;
  itunes_episode_type : string;
  itunes_block : bool
}.

(** [entry.podcast.itunes_duration(d)]: the setter takes [str(d)] and
    raises unless it is made of digits and colons, so a negative number is
    refused. *)
Definition set_itunes_duration (d : option Z) : result (option Z) :=
  match d with
  | Some n =>
      if n <? 0 then Raise (ValueError "Invalid duration format")
      else Ok (Some n)
  | None => Ok None
  end.
End FeedEntry.

(** [feedgen.feed.FeedGenerator] with its podcast extension: the channel
    tags and the entries, in document order. *)
Module FeedGenerator.
Record t : Type := mk {
  title : string;
  description : option string;
  itunes_image : option string;
  language : string;
  itunes_category : option ItunesCategory.t;
  itunes_explicit : string;
  itunes_author : option string;
  link_href : string;
  itunes_type : string;
  copyright : option string;
  itunes_new_feed_url : option string;
  itunes_block : bool;
  itunes_complete : bool;
  entries : list FeedEntry.t
}.

(** [fg.add_entry(order="append")] followed by the setters that fill the
    new entry: the filled entry goes last. *)
Definition add_entry (fg : t) (e : FeedEntry.t) : t :=
  {| title := title fg; description := description fg;
     itunes_image := itunes_image fg; language := language fg;
     itunes_category := itunes_category fg;
     itunes_explicit := itunes_explicit fg;
     itunes_author := itunes_author fg; link_href := link_href fg;
     itunes_type := itunes_type fg; copyright := copyright fg;
     itunes_new_feed_url := itunes_new_feed_url fg;
     itunes_block := itunes_block fg; itunes_complete := itunes_complete fg;
     entries := (entries fg ++ [e])%list |}.
End FeedGenerator.

Module PodcastItem.

Record t : Type := mk {
  (* Required tags *)
  title : option string;
  enclosure : Enclosure.t;
  guid : string;
  (* Recommended tags *)
  pub_date : option Datetime.datetime;
  description : option string;
  itunes_duration : option Z;
  link : option string;
  itunes_image : option string;
  itunes_explicit : bool;
  (* Situational tags *)
  itunes_title : option string;
  itunes_episode : option Z;
  itunes_season : option Z;
  itunes_episode_type : EpisodeType.t;
  podcast_transcript : option string;
  itunes_block : bool
}.

Definition from_program (w : world) (program : Program.t) (program_id : ObjectId)
  (base_url : string) (media_root : Path.path) : result t :=
  let media_dir :=
    Path.joinpath media_root
      [Program.platform_id program; Program.station_id program;
       str_ObjectId program_id] in
  media_path <- index_first (Fs.glob_media (fs w) media_dir) ;;
  (* duration = program.duration or _media_path_to_duration(media_path) *)
  duration <-
    match Program.duration program with
    | Some d =>
        if number_truthy d then Ok d else _media_path_to_duration w media_path
    | None => _media_path_to_duration w media_path
    end ;;
  enclosure <-
    Enclosure.from_path w media_path (Program.is_video program) base_url media_root ;;
  (* itunes_duration=int(duration), evaluated after the enclosure *)
  itunes_duration <- int_of_number duration ;;
  Ok {| title := Program.episode_name program;
        enclosure := enclosure;
        guid := Program.str_episode_id (Program.episode_id program);
        pub_date := Program.datetime program;
        description :=
          or_str (Program.description program) (Program.information program);
        itunes_duration := Some itunes_duration;
        link := Program.url program;
        itunes_image := Program.image_url program;
        itunes_explicit := false;
        itunes_title := None;
        itunes_episode := None;
        itunes_season := None;
        itunes_episode_type := EpisodeType.FULL;
        podcast_transcript := None;
        itunes_block := false |}.

(** The entry is the fresh one [add_entry] has just made. Of the setters
    only the one of the duration refuses a value this method can pass. *)
Definition set_feed_entry (self : t) : result FeedEntry.t :=
  pubDate <-
    match pub_date self with
    | Some d => (s <- _datetime_to_pub_data d default_zone ;; Ok (Some s))
    | None => Ok None
    end ;;
  itunes_duration <- FeedEntry.set_itunes_duration (itunes_duration self) ;;
  Ok {| FeedEntry.title := title self;
        FeedEntry.enclosure_url := Enclosure.url (enclosure self);
        FeedEntry.enclosure_length := Enclosure.length (enclosure self);
        FeedEntry.enclosure_type := Enclosure.type (enclosure self);
        FeedEntry.guid := guid self;
        FeedEntry.guid_permalink := false;
        FeedEntry.pubDate := pubDate;
        FeedEntry.description := description self;
        FeedEntry.itunes_duration := itunes_duration;
        FeedEntry.link_href :=
          if str_truthy (link self) then
            match link self with Some l => l | None => RADIKO_LINK end
          else RADIKO_LINK;
        FeedEntry.itunes_image := itunes_image self;
        FeedEntry.itunes_explicit := if itunes_explicit self then "yes" else "no";
        FeedEntry.itunes_title := itunes_title self;
        FeedEntry.itunes_episode := itunes_episode self;
        FeedEntry.itunes_season := itunes_season self;
        FeedEntry.itunes_episode_type := EpisodeType.value (itunes_episode_type self);
        FeedEntry.itunes_block := itunes_block self |}.

End PodcastItem.

Module PodcastChannel.

Record t : Type := mk {
  (* Required tags *)
  title : string;
  description : option string;
  itunes_image : option string;
  language : string;
  itunes_category : option ItunesCategory.t;
  itunes_explicit : bool;
  (* Recommended tags *)
  itunes_author : option string;
  link : option string;
  (* Situational tags *)
  itunes_title : option string;
  itunes_type : ItunesType.t;
  copyright : option string;
  itunes_new_feed_url : option string;
  itunes_block : bool;
  itunes_complete : bool
}.

Definition from_program (program : Program.t) : t :=
  {| title := Program.name program;
     description :=
       or_str (Program.description program) (Program.information program);
     itunes_image := Program.image_url program;
     language := "ja";
     itunes_category := None;
     itunes_explicit := false;
     itunes_author := Some (Program.station_id program);
     link := Program.url program;
     itunes_title := None;
     itunes_type := ItunesType.EPISODIC;
     copyright := Program.copyright program;
     itunes_new_feed_url := None;
     itunes_block := false;
     itunes_complete := false |}.

Definition to_feed_generator (self : t) : FeedGenerator.t :=
  {| FeedGenerator.title := title self;
     FeedGenerator.description := description self;
     FeedGenerator.itunes_image := itunes_image self;
     FeedGenerator.language := language self;
     FeedGenerator.itunes_category := itunes_category self;
     FeedGenerator.itunes_explicit := if itunes_explicit self then "yes" else "no";
     FeedGenerator.itunes_author := itunes_author self;
     FeedGenerator.link_href :=
       if str_truthy (link self) then
         match link self with Some l => l | None => RADIKO_LINK end
       else RADIKO_LINK;
     FeedGenerator.itunes_type := ItunesType.value (itunes_type self);
     FeedGenerator.copyright := copyright self;
     FeedGenerator.itunes_new_feed_url := itunes_new_feed_url self;
     FeedGenerator.itunes_block := itunes_block self;
     FeedGenerator.itunes_complete := itunes_complete self;
     FeedGenerator.entries := [] |}.

End PodcastChannel.

Module PodcastRssFeedGenCreator.

Record t : Type := mk {
  base_url : string;
  media_root : Path.path
}.

Definition pair : Type := (Program.t * ObjectId)%type.

Definition available_sort_by : list string := ["datetime"; "episode_id"].

(** [len(set(program.station_id for program, _ in pairs))]. *)
Definition count_station_ids (program_and_id_pairs : list pair) : nat :=
  List.length
    (nodup string_dec
       (map (fun x : pair => Program.station_id (fst x)) program_and_id_pairs)).

Definition in_list (s : string) (l : list string) : bool :=
  existsb (String.eqb s) l.

(** Lines 280-297: the value of [sort_by] the sort runs with. *)
Definition create_sort_by (program_and_id_pairs : list pair)
  (sort_by : option string) : result string :=
  match sort_by with
  | Some sort_by =>
      if negb (in_list sort_by available_sort_by) then
        Raise (ValueError
                 ("'" ++ sort_by ++ "' is not supported sort_by. "
                  ++ "Please select 'datetime' or 'eposode_id'"))
      else Ok sort_by
  | None =>
      if Nat.ltb 1 (count_station_ids program_and_id_pairs) then
        Ok "datetime"
      else
        first <- index_first program_and_id_pairs ;;
        if in_list (Program.station_id (fst first)) ["onsen.ag"; "hibiki-radio.jp"]
        then Ok "episode_id"
        else Ok "datetime"
  end.

(** Lines 298-302: the sort. *)
Definition create_sorted (program_and_id_pairs : list pair) (sort_by : string)
  (from_oldest : bool) : result (list pair) :=
  Builtins.sorted (fun x : pair => Program.getattr (fst x) sort_by)
    (negb from_oldest) program_and_id_pairs.

(** The variables of the duplicate-suppression loop. *)
Record dedup_state : Type := mk_dedup {
  unique_pairs : list pair;
  prev_datetime : Value.value;
  prev_episode_id : Value.value
}.

(** One iteration of the loop of lines 308-315. *)
Definition dedup_step (st : dedup_state) (x : pair) : dedup_state :=
  let '(program, program_id) := x in
  {| unique_pairs :=
       if (Value.neb (prev_datetime st) (Program.datetime_value program)
           && Value.neb (prev_episode_id st) (Program.episode_id_value program))%bool
       then (unique_pairs st ++ [(program, program_id)])%list
       else unique_pairs st;
     prev_datetime := Program.datetime_value program;
     prev_episode_id := Program.episode_id_value program |}.

(** Lines 305-321: the duplicate-suppression pass. *)
Definition create_unique_pairs (program_and_id_pairs : list pair) : list pair :=
  unique_pairs
    (fold_left dedup_step program_and_id_pairs
       {| unique_pairs := []; prev_datetime := Value.VNone;
          prev_episode_id := Value.VNone |}).

(** Lines 324-326: the channel of the feed. *)
Definition create_channel (program_and_id_pairs : list pair)
  (channel : option PodcastChannel.t) (from_oldest : bool)
  : result PodcastChannel.t :=
  match channel with
  | Some channel => Ok channel
  | None =>
      latest <- (if from_oldest then index_last program_and_id_pairs
                 else index_first program_and_id_pairs) ;;
      Ok (PodcastChannel.from_program (fst latest))
  end.

(** Lines 330-339: the items, appended in order; the first failure is
    logged and raised again. *)
Fixpoint create_items (w : world) (self : t) (feed_generator : FeedGenerator.t)
  (program_and_id_pairs : list pair) : result FeedGenerator.t :=
  match program_and_id_pairs with
  | [] => Ok feed_generator
  | (program, program_id) :: rest =>
      item <- PodcastItem.from_program w program program_id
                (base_url self) (media_root self) ;;
      entry <- PodcastItem.set_feed_entry item ;;
      create_items w self (FeedGenerator.add_entry feed_generator entry) rest
  end.

(** The sequence the channel and the items are built from: sorted, then
    deduplicated when asked. *)
Definition create_pairs (program_and_id_pairs : list pair)
  (sort_by : option string) (from_oldest remove_duplicates : bool)
  : result (list pair) :=
  sort_by <- create_sort_by program_and_id_pairs sort_by ;;
  program_and_id_pairs <- create_sorted program_and_id_pairs sort_by from_oldest ;;
  Ok (if remove_duplicates then create_unique_pairs program_and_id_pairs
      else program_and_id_pairs).

Definition create (w : world) (self : t) (program_and_id_pairs : list pair)
  (channel : option PodcastChannel.t) (sort_by : option string)
  (from_oldest remove_duplicates : bool) : result FeedGenerator.t :=
  program_and_id_pairs <-
    create_pairs program_and_id_pairs sort_by from_oldest remove_duplicates ;;
  channel <- create_channel program_and_id_pairs channel from_oldest ;;
  let feed_generator := PodcastChannel.to_feed_generator channel in
  create_items w self feed_generator program_and_id_pairs.

End PodcastRssFeedGenCreator.

(* ===================================================================== *)
(** * Concrete inputs *)
(* ===================================================================== *)

Module Examples.

(** [urljoin] on a base URL that ends in a slash and a relative path
    without dot segments. *)
Definition urljoin_dir (base rel : string) : string := base ++ rel.

Definition creator : PodcastRssFeedGenCreator.t :=
  {| PodcastRssFeedGenCreator.base_url := "https://x.example/";
     PodcastRssFeedGenCreator.media_root := ["data"] |}.

Definition naive_at (y m d hh mm ss : Z) : Datetime.datetime :=
  Datetime.mk_datetime y m d hh mm ss 0 None.

Definition program (station name : string) (eid : option Program.id_value)
  (dt : option Datetime.datetime) (dur : option number) : Program.t :=
  {| Program.platform_id := "radiko";
     Program.station_id := station;
     Program.name := name;
     Program.url := None;
     Program.description := Some ("about " ++ name);
     Program.information := None;
     Program.copyright := None;
     Program.episode_id := eid;
     Program.episode_name := Some (name ++ " episode");
     Program.datetime := dt;
     Program.duration := dur;
     Program.image_url := None;
     Program.is_video := false |}.

Definition oid1 : ObjectId := mk_ObjectId "65a000000000000000000001".
Definition oid2 : ObjectId := mk_ObjectId "65a000000000000000000002".
Definition oid3 : ObjectId := mk_ObjectId "65a000000000000000000003".

Definition media (station : string) (oid : ObjectId) (file_name : string)
  (c : Fs.container) : Fs.file :=
  {| Fs.f_path := ["data"; "radiko"; station; str_ObjectId oid; file_name];
     Fs.f_size := 1024;
     Fs.f_container := c;
     Fs.f_length := 1800 # 1 |}.

(** A media tree with one mp3 per episode of station TBS. *)
Definition tbs_world : world :=
  {| fs := [media "TBS" oid1 "media.mp3" Fs.MP3;
            media "TBS" oid2 "media.mp3" Fs.MP3;
            media "TBS" oid3 "media.mp3" Fs.MP3];
     urljoin := urljoin_dir |}.

(** A media tree whose only episode is a QuickTime file. *)
Definition mov_world : world :=
  {| fs := [media "TBS" oid1 "media.mov" Fs.OtherContainer];
     urljoin := urljoin_dir |}.

(** A media tree in which the episode directory holds no media file. *)
Definition empty_world : world :=
  {| fs := [media "TBS" oid2 "media.mp3" Fs.MP3;
            media "TBS" oid1 "cover.jpg" Fs.OtherContainer];
     urljoin := urljoin_dir |}.

Definition ep42 : Program.t :=
  program "TBS" "Night Show" (Some (Program.IdInt 42))
    (Some (naive_at 2024 1 1 1 0 0)) (Some (NInt 1800)).

Definition ep_no_duration : Program.t :=
  program "TBS" "Night Show" (Some (Program.IdInt 42))
    (Some (naive_at 2024 1 1 1 0 0)) None.

(** An episode without a datetime, and one without an episode id. *)
Definition ep_no_datetime : Program.t :=
  program "TBS" "Night Show" (Some (Program.IdInt 42)) None (Some (NInt 1800)).

Definition ep_no_episode_id : Program.t :=
  program "TBS" "Night Show" None
    (Some (naive_at 2024 1 2 1 0 0)) (Some (NInt 1800)).

Definition ep7 : Program.t :=
  program "TBS" "Night Show" (Some (Program.IdInt 7))
    (Some (naive_at 2024 1 1 1 0 0)) (Some (NInt 1800)).

Definition some_channel : PodcastChannel.t :=
  PodcastChannel.from_program ep42.

(** Three episodes in ascending datetime order: the second repeats the
    datetime of the first, the third repeats the episode id of the first. *)
Definition ep_a : Program.t :=
  program "TBS" "A" (Some (Program.IdInt 1))
    (Some (naive_at 2024 1 1 1 0 0)) (Some (NInt 1800)).
Definition ep_b : Program.t :=
  program "TBS" "B" (Some (Program.IdInt 2))
    (Some (naive_at 2024 1 1 1 0 0)) (Some (NInt 1800)).
Definition ep_c : Program.t :=
  program "TBS" "C" (Some (Program.IdInt 1))
    (Some (naive_at 2024 1 2 1 0 0)) (Some (NInt 1800)).

(** A later episode with a datetime and an episode id of its own. *)
Definition ep_d : Program.t :=
  program "TBS" "D" (Some (Program.IdInt 3))
    (Some (naive_at 2024 1 3 1 0 0)) (Some (NInt 1800)).

(** An item with a link of its own and a publish date. *)
Definition item42 : PodcastItem.t :=
  {| PodcastItem.title := Some "Night Show episode";
     PodcastItem.enclosure :=
       {| Enclosure.url := "https://x.example/media/radiko/TBS/ep/media.mp3";
          Enclosure.length := Some 1024;
          Enclosure.type := Some "audio/mpeg" |};
     PodcastItem.guid := "42";
     PodcastItem.pub_date := Some (naive_at 2024 1 1 1 0 0);
     PodcastItem.description := None;
     PodcastItem.itunes_duration := Some 1800;
     PodcastItem.link := Some "https://radio.example/night";
     PodcastItem.itunes_image := None;
     PodcastItem.itunes_explicit := false;
     PodcastItem.itunes_title := None;
     PodcastItem.itunes_episode := None;
     PodcastItem.itunes_season := None;
     PodcastItem.itunes_episode_type := EpisodeType.FULL;
     PodcastItem.podcast_transcript := None;
     PodcastItem.itunes_block := false |}.


End Examples.

(* ===================================================================== *)
(** * The vocabulary of the properties *)
(* ===================================================================== *)

Import PodcastRssFeedGenCreator.

(** ** Items and durations *)

(** The directory [from_program] scans. *)
Definition media_dir_of (media_root : Path.path) (program : Program.t)
  (program_id : ObjectId) : Path.path :=
  Path.joinpath media_root
    [Program.platform_id program; Program.station_id program;
     str_ObjectId program_id].

(** A precomputed duration that is absent or zero. *)
Definition absent_or_zero (d : option number) : Prop :=
  d = None \/ d = Some (NInt 0) \/ exists q, d = Some (NFloat q) /\ (q == 0)%Q.

(** ** Publish dates *)




(** ** Stations *)

Definition station_of (x : pair) : string := Program.station_id (fst x).

(** The fixed list of stations whose episode ids order the episodes. *)
Definition episode_id_stations : list string := ["onsen.ag"; "hibiki-radio.jp"].

(** ** Duplicate suppression *)

Definition datetime_of (x : pair) : Value.value := Program.datetime_value (fst x).
Definition episode_id_of (x : pair) : Value.value := Program.episode_id_value (fst x).

(** The test of line 309 against explicit previous values. *)
Definition differs (pd pe : Value.value) (x : pair) : bool :=
  Value.neb pd (datetime_of x) && Value.neb pe (episode_id_of x).

(** The pass as a recursion on the rest of the sequence, from the values
    the previous item left behind. *)
Fixpoint unique_from (pd pe : Value.value) (l : list pair) : list pair :=
  match l with
  | [] => []
  | x :: rest =>
      if differs pd pe x
      then x :: unique_from (datetime_of x) (episode_id_of x) rest
      else unique_from (datetime_of x) (episode_id_of x) rest
  end.

(** The rule of the pass in the words of its description: the first item
    is kept, and a later item is kept exactly when its datetime and its
    episode id both differ from those of the item just before it. *)
Fixpoint kept_after (prev : pair) (l : list pair) : list pair :=
  match l with
  | [] => []
  | x :: rest =>
      if differs (datetime_of prev) (episode_id_of prev) x
      then x :: kept_after x rest
      else kept_after x rest
  end.

Definition first_and_differing (l : list pair) : list pair :=
  match l with
  | [] => []
  | x :: rest => x :: kept_after x rest
  end.

(** Items agree with their predecessor on the datetime exactly when they
    agree on the episode id, from the previous values [pd] and [pe] on. *)
Fixpoint repeats_agree_from (pd pe : Value.value) (l : list pair) : Prop :=
  match l with
  | [] => True
  | x :: rest =>
      Value.eqb pd (datetime_of x) = Value.eqb pe (episode_id_of x)
      /\ repeats_agree_from (datetime_of x) (episode_id_of x) rest
  end.

(** The same for a whole sequence, whose first item has [None] before it. *)
Definition repeats_agree (l : list pair) : Prop :=
  repeats_agree_from Value.VNone Value.VNone l.

(** ** Orders *)

(** The strict order a three-way comparison induces. *)
Definition below {X : Type} (cmp : X -> X -> comparison) (a b : X) : bool :=
  match cmp a b with Lt => true | _ => false end.

(** [a <= b] in the order of [<]: the two values can be ordered and [b] is
    not below [a]. *)
Definition not_above (a b : Value.value) : Prop := Value.ltb b a = Ok false.

(** Decorated elements in ascending key order. *)
Definition ascending {A : Type} (kx ky : Value.value * A) : Prop :=
  not_above (fst kx) (fst ky).

(** The decorated elements whose key equals [k]. *)
Definition with_key {A : Type} (k : Value.value) (l : list (Value.value * A))
  : list (Value.value * A) :=
  filter (fun kx => Value.eqb (fst kx) k) l.

(** Any two keys of the list can be ordered. *)
Definition orderable {A : Type} (l : list (Value.value * A)) : Prop :=
  forall kx ky, In kx l -> In ky l -> exists b, Value.ltb (fst kx) (fst ky) = Ok b.

(** The decoration [sorted] sorts: every element with its key. *)
Definition decorate {A : Type} (key : A -> Value.value) (x : A) : Value.value * A :=
  (key x, x).

Definition decorated {A : Type} (key : A -> Value.value) (kx : Value.value * A)
  : Prop :=
  fst kx = key (snd kx).

(** The order [sorted] leaves the keys in: ascending, or descending when
    [reverse] is set. *)
Definition in_order {A : Type} (key : A -> Value.value) (reverse : bool) (x y : A)
  : Prop :=
  if reverse then not_above (key y) (key x) else not_above (key x) (key y).

(** The key [create] sorts a pair by. *)
Definition sort_key (sort_by : string) (x : pair) : Value.value :=
  Program.getattr (fst x) sort_by.

(** ** Feeds *)

(** The channel tags of a feed. *)
Definition without_entries (fg : FeedGenerator.t) : FeedGenerator.t :=
  {| FeedGenerator.title := FeedGenerator.title fg;
     FeedGenerator.description := FeedGenerator.description fg;
     FeedGenerator.itunes_image := FeedGenerator.itunes_image fg;
     FeedGenerator.language := FeedGenerator.language fg;
     FeedGenerator.itunes_category := FeedGenerator.itunes_category fg;
     FeedGenerator.itunes_explicit := FeedGenerator.itunes_explicit fg;
     FeedGenerator.itunes_author := FeedGenerator.itunes_author fg;
     FeedGenerator.link_href := FeedGenerator.link_href fg;
     FeedGenerator.itunes_type := FeedGenerator.itunes_type fg;
     FeedGenerator.copyright := FeedGenerator.copyright fg;
     FeedGenerator.itunes_new_feed_url := FeedGenerator.itunes_new_feed_url fg;
     FeedGenerator.itunes_block := FeedGenerator.itunes_block fg;
     FeedGenerator.itunes_complete := FeedGenerator.itunes_complete fg;
     FeedGenerator.entries := [] |}.

(** ** Further vocabulary: enclosures, guids and subsequences *)


(** The guid an item built from the pair carries. *)
Definition guid_of (x : pair) : string :=
  Program.str_episode_id (Program.episode_id (fst x)).

(** [l1] is [l2] with some elements left out, the others in place. *)
Inductive subsequence {A : Type} : list A -> list A -> Prop :=
| subsequence_nil : subsequence [] []
| subsequence_keep (x : A) (l1 l2 : list A) :
    subsequence l1 l2 -> subsequence (x :: l1) (x :: l2)
| subsequence_drop (x : A) (l1 l2 : list A) :
    subsequence l1 l2 -> subsequence l1 (x :: l2).

(** Every item differs from the one before it in datetime and in episode
    id, from the previous values [pd] and [pe] on. *)
Fixpoint all_differ_from (pd pe : Value.value) (l : list pair) : Prop :=
  match l with
  | [] => True
  | x :: rest =>
      differs pd pe x = true
      /\ all_differ_from (datetime_of x) (episode_id_of x) rest
  end.

(** No two pairs of the list share the value of the sort attribute. *)
Definition distinct_keys (sort_by : string) (l : list pair) : Prop :=
  ForallOrdPairs
    (fun x y => Value.eqb (sort_key sort_by x) (sort_key sort_by y) = false) l.

(** The value one of the previous values of the loop holds for the sort
    attribute. *)
Definition previous_key (sort_by : string) (pd pe : Value.value) : Value.value :=
  if (sort_by =? "episode_id")%string then pe else pd.

(** The pair maps to an item and the item to an entry. *)
Definition maps_well (w : world) (self : PodcastRssFeedGenCreator.t) (x : pair)
  : Prop :=
  exists item entry,
    PodcastItem.from_program w (fst x) (snd x)
      (PodcastRssFeedGenCreator.base_url self)
      (PodcastRssFeedGenCreator.media_root self) = Ok item
    /\ PodcastItem.set_feed_entry item = Ok entry.

(** The pair fails with [e]: in the item mapper, or in the setters of its
    entry. *)
Definition fails_with (w : world) (self : PodcastRssFeedGenCreator.t) (x : pair)
  (e : exn) : Prop :=
  PodcastItem.from_program w (fst x) (snd x)
    (PodcastRssFeedGenCreator.base_url self)
    (PodcastRssFeedGenCreator.media_root self) = Raise e
  \/ exists item,
       PodcastItem.from_program w (fst x) (snd x)
         (PodcastRssFeedGenCreator.base_url self)
         (PodcastRssFeedGenCreator.media_root self) = Ok item
       /\ PodcastItem.set_feed_entry item = Raise e.

(** The string has no slash. *)
Fixpoint no_slash (s : string) : bool :=
  match s with
  | EmptyString => true
  | String c s' => negb (Ascii.eqb c "/") && no_slash s'
  end.

(** An ordinary single path component: not empty, not a dot or two, no
    slash. *)
Definition plain_segment (s : string) : Prop :=
  s <> "" /\ s <> "." /\ s <> ".." /\ no_slash s = true.

(* ===================================================================== *)
(** * Properties *)
(* ===================================================================== *)

(** ** The error monad *)

Lemma bind_ok_inv {A B : Type} (m : result A) (k : A -> result B) (b : B) :
  Py.bind m k = Ok b -> exists a, m = Ok a /\ k a = Ok b.
Proof.
  destruct m as [a | e]; simpl; intros H.
  - exists a. split; [reflexivity | exact H].
  - discriminate H.
Qed.

Ltac bind_inv H :=
  let a := fresh "a" in
  let Ha := fresh "Ha" in
  apply bind_ok_inv in H; destruct H as [a [Ha H]].

(** ** The file system *)

Lemma path_eqb_eq (p q : Path.path) : Path.eqb p q = true <-> p = q.
Proof.
  unfold Path.eqb. destruct (list_eq_dec string_dec p q); split; congruence.
Qed.

(** Every path [glob] returns is the path of a file of the tree. *)
Lemma glob_media_exists (t : Fs.t) (dir p : Path.path) :
  In p (Fs.glob_media t dir) -> Fs.exists_ t p = true.
Proof.
  unfold Fs.glob_media, Fs.exists_. intros H.
  apply in_map_iff in H. destruct H as [f [Hf Hin]].
  apply filter_In in Hin. destruct Hin as [Hin _].
  apply existsb_exists. exists f. split; [exact Hin |].
  apply path_eqb_eq. exact Hf.
Qed.

(** ** The enclosure type *)

(** C8: the enclosure MIME type is decided by the suffix of the path and the
    video flag alone: [.mp3] gives audio/mpeg, [.m4a] gives audio/x-m4a,
    [.mp4] gives video/mp4 for a video and audio/x-m4a otherwise, [.mov]
    gives video/quicktime, and any other suffix raises the [ValueError] that
    stands for an unsupported format. *)
Theorem path_to_enclosure_type_table (path : Path.path) (is_video : bool) :
  (Path.suffix path = ".mp3" ->
   _path_to_enclosure_type path is_video = Ok "audio/mpeg")
  /\ (Path.suffix path = ".m4a" ->
      _path_to_enclosure_type path is_video = Ok "audio/x-m4a")
  /\ (Path.suffix path = ".mp4" ->
      _path_to_enclosure_type path is_video
      = Ok (if is_video then "video/mp4" else "audio/x-m4a"))
  /\ (Path.suffix path = ".mov" ->
      _path_to_enclosure_type path is_video = Ok "video/quicktime")
  /\ (~ In (Path.suffix path) [".mp3"; ".m4a"; ".mp4"; ".mov"] ->
      exists msg, _path_to_enclosure_type path is_video = Raise (ValueError msg))
  /\ (forall path' : Path.path,
        Path.suffix path' = Path.suffix path ->
        is_ok (_path_to_enclosure_type path' is_video)
        = is_ok (_path_to_enclosure_type path is_video)
        /\ forall mime, _path_to_enclosure_type path is_video = Ok mime ->
                        _path_to_enclosure_type path' is_video = Ok mime).
Proof.
  unfold _path_to_enclosure_type.
  repeat split.
  - intros ->. reflexivity.
  - intros ->. reflexivity.
  - intros ->. reflexivity.
  - intros ->. reflexivity.
  - intros Hnot. simpl in Hnot.
    destruct (String.eqb_spec ".mp3" (Path.suffix path)) as [E | _]; [tauto |].
    destruct (String.eqb_spec ".m4a" (Path.suffix path)) as [E | _]; [tauto |].
    destruct (String.eqb_spec ".mp4" (Path.suffix path)) as [E | _]; [tauto |].
    destruct (String.eqb_spec ".mov" (Path.suffix path)) as [E | _]; [tauto |].
    eexists. reflexivity.
  - rewrite H.
    repeat match goal with
           | |- context [String.eqb ?a ?b] => destruct (String.eqb a b)
           end; reflexivity.
  - rewrite H. intros mime.
    repeat match goal with
           | |- context [String.eqb ?a ?b] => destruct (String.eqb a b)
           end; try exact (fun E => E); discriminate.
Qed.

(** The table at an mp4 path, with and without video, and at an ogg path. *)
Lemma path_to_enclosure_type_table_witness :
  _path_to_enclosure_type ["data"; "radiko"; "TBS"; "ep1"; "media.mp4"] true
  = Ok "video/mp4"
  /\ _path_to_enclosure_type ["data"; "radiko"; "TBS"; "ep1"; "media.mp4"] false
     = Ok "audio/x-m4a"
  /\ exists msg,
       _path_to_enclosure_type ["data"; "radiko"; "TBS"; "ep1"; "media.ogg"] false
       = Raise (ValueError msg).
Proof.
  split; [| split].
  - apply (proj1 (proj2 (proj2
      (path_to_enclosure_type_table ["data"; "radiko"; "TBS"; "ep1"; "media.mp4"] true)))).
    reflexivity.
  - apply (proj1 (proj2 (proj2
      (path_to_enclosure_type_table ["data"; "radiko"; "TBS"; "ep1"; "media.mp4"] false)))).
    reflexivity.
  - apply (proj1 (proj2 (proj2 (proj2 (proj2
      (path_to_enclosure_type_table ["data"; "radiko"; "TBS"; "ep1"; "media.ogg"] false)))))).
    simpl. intros [E | [E | [E | [E | []]]]]; discriminate E.
Defined.

(** ** The item mapper *)

Lemma absent_or_zero_falsy (d : option number) :
  absent_or_zero d ->
  match d with Some n => number_truthy n = false | None => True end.
Proof.
  intros [-> | [-> | [q [-> Hq]]]]; simpl; try reflexivity.
  unfold Qeq in Hq. simpl in Hq.
  replace (Qnum q) with 0 by lia. reflexivity.
Qed.

(** C10: when the media file the scan finds has the suffix [.mov] and the
    program carries no usable precomputed duration (absent or zero),
    [from_program] raises the media inspector's unsupported-format
    [ValueError], although the type resolver accepts the same path. *)
Theorem from_program_mov_needs_duration
  (w : world) (program : Program.t) (program_id : ObjectId)
  (base_url : string) (media_root media_path : Path.path) (others : list Path.path) :
  Fs.glob_media (fs w) (media_dir_of media_root program program_id)
  = media_path :: others ->
  Path.suffix media_path = ".mov" ->
  absent_or_zero (Program.duration program) ->
  PodcastItem.from_program w program program_id base_url media_root
  = Raise (ValueError ".mov is not supported file type")
  /\ _media_path_to_duration w media_path
     = Raise (ValueError ".mov is not supported file type")
  /\ _path_to_enclosure_type media_path (Program.is_video program)
     = Ok "video/quicktime".
Proof.
  intros Hglob Hsuffix Hdur.
  assert (Hexists : Fs.exists_ (fs w) media_path = true).
  { apply (glob_media_exists _ (media_dir_of media_root program program_id)).
    rewrite Hglob. left. reflexivity. }
  assert (Hinspect : _media_path_to_duration w media_path
                     = Raise (ValueError ".mov is not supported file type")).
  { unfold _media_path_to_duration. rewrite Hexists, Hsuffix. reflexivity. }
  split; [| split].
  - unfold PodcastItem.from_program.
    fold (media_dir_of media_root program program_id).
    rewrite Hglob. simpl.
    apply absent_or_zero_falsy in Hdur.
    destruct (Program.duration program) as [n |].
    + rewrite Hdur, Hinspect. reflexivity.
    + rewrite Hinspect. reflexivity.
  - exact Hinspect.
  - unfold _path_to_enclosure_type. rewrite Hsuffix. reflexivity.
Qed.

(** A QuickTime episode without a precomputed duration. *)
Lemma from_program_mov_needs_duration_witness :
  PodcastItem.from_program Examples.mov_world Examples.ep_no_duration Examples.oid1
    "https://x.example/" ["data"]
  = Raise (ValueError ".mov is not supported file type").
Proof.
  apply (from_program_mov_needs_duration Examples.mov_world Examples.ep_no_duration
           Examples.oid1 "https://x.example/" ["data"]
           ["data"; "radiko"; "TBS"; "65a000000000000000000001"; "media.mov"] []).
  - reflexivity.
  - reflexivity.
  - left. reflexivity.
Defined.

(** C1 (as the code has it): the guid of the item [from_program] returns is
    the string form of the program's own [episode_id] attribute; the
    identifier argument only names the media directory. *)
Theorem from_program_guid
  (w : world) (program : Program.t) (program_id : ObjectId)
  (base_url : string) (media_root : Path.path) (item : PodcastItem.t) :
  PodcastItem.from_program w program program_id base_url media_root = Ok item ->
  PodcastItem.guid item = Program.str_episode_id (Program.episode_id program).
Proof.
  unfold PodcastItem.from_program. intros H.
  bind_inv H. bind_inv H. bind_inv H. bind_inv H.
  injection H as <-. reflexivity.
Qed.

(** The guid of episode 42 stored under the first identifier. *)
Lemma from_program_guid_witness :
  exists item,
    PodcastItem.from_program Examples.tbs_world Examples.ep42 Examples.oid1
      "https://x.example/" ["data"] = Ok item
    /\ PodcastItem.guid item = "42".
Proof.
  eexists. split.
  - reflexivity.
  - apply (from_program_guid Examples.tbs_world Examples.ep42 Examples.oid1
             "https://x.example/" ["data"]).
    reflexivity.
Defined.

(** C1, refuted as stated: for the program with episode id 42 stored under
    the identifier 65a000000000000000000001 the guid is "42", which is not
    the string form of the identifier. *)
Lemma from_program_guid_is_not_identifier :
  exists item,
    PodcastItem.from_program Examples.tbs_world Examples.ep42 Examples.oid1
      "https://x.example/" ["data"] = Ok item
    /\ PodcastItem.guid item = "42"
    /\ str_ObjectId Examples.oid1 = "65a000000000000000000001"
    /\ PodcastItem.guid item <> str_ObjectId Examples.oid1.
Proof.
  eexists. split; [reflexivity |].
  split; [reflexivity |]. split; [reflexivity |].
  simpl. discriminate.
Qed.

(** ** A missing media file *)


(** An item that fails stops the loop with its own exception. *)
Lemma create_items_raise
  (w : world) (self : PodcastRssFeedGenCreator.t) (fg : FeedGenerator.t)
  (program : Program.t) (program_id : ObjectId)
  (rest : list PodcastRssFeedGenCreator.pair) (e : exn) :
  PodcastItem.from_program w program program_id
    (PodcastRssFeedGenCreator.base_url self)
    (PodcastRssFeedGenCreator.media_root self) = Raise e ->
  PodcastRssFeedGenCreator.create_items w self fg ((program, program_id) :: rest)
  = Raise e.
Proof.
  intros H. simpl. rewrite H. reflexivity.
Qed.

(** C4, evaluated: the episode directory of identifier
    65a000000000000000000001 holds only a cover image; [from_program] raises
    [IndexError], not [FileNotFoundError], and [create] raises the same
    [IndexError] and returns no feed, also when the failing episode comes
    after one that maps well. *)
Theorem missing_media_raises_index_error :
  Fs.glob_media (fs Examples.empty_world)
    (media_dir_of ["data"] Examples.ep42 Examples.oid1) = []
  /\ PodcastItem.from_program Examples.empty_world Examples.ep42 Examples.oid1
       "https://x.example/" ["data"] = Raise IndexError
  /\ PodcastRssFeedGenCreator.create Examples.empty_world Examples.creator
       [(Examples.ep42, Examples.oid1)] None None false true = Raise IndexError
  /\ PodcastRssFeedGenCreator.create Examples.empty_world Examples.creator
       [(Examples.ep42, Examples.oid2); (Examples.ep42, Examples.oid1)]
       None None false false = Raise IndexError.
Proof.
  repeat split; reflexivity.
Qed.

(** ** The publish date *)





(** ** The sort key *)

Lemma two_distinct_count (l : list string) (x y : string) :
  In x l -> In y l -> x <> y -> (1 < List.length (nodup string_dec l))%nat.
Proof.
  intros Hx Hy Hxy.
  apply (nodup_In string_dec) in Hx. apply (nodup_In string_dec) in Hy.
  destruct (nodup string_dec l) as [| a [| b r]]; simpl in *.
  - contradiction.
  - destruct Hx as [<- | []]. destruct Hy as [<- | []]. congruence.
  - lia.
Qed.

Lemma one_shared_count (l : list string) (s : string) :
  (forall x, In x l -> x = s) -> (List.length (nodup string_dec l) <= 1)%nat.
Proof.
  intros Hall.
  pose proof (NoDup_nodup string_dec l) as Hnd.
  assert (Hs : forall x, In x (nodup string_dec l) -> x = s).
  { intros x Hx. apply Hall. apply (nodup_In string_dec). exact Hx. }
  destruct (nodup string_dec l) as [| a [| b r]]; simpl; try lia.
  exfalso. inversion Hnd as [| ? ? Hnotin _]; subst.
  apply Hnotin. left.
  rewrite (Hs a), (Hs b); simpl; auto.
Qed.

Lemma in_list_In (s : string) (l : list string) : in_list s l = true <-> In s l.
Proof.
  unfold in_list. rewrite existsb_exists. split.
  - intros [x [Hin Heq]]. apply String.eqb_eq in Heq. subst. exact Hin.
  - intros Hin. exists s. split; [exact Hin | apply String.eqb_refl].
Qed.

(** C5: with [sort_by] unset and a non-empty input, the sort key is
    "datetime" when two pairs differ in their station id; when every pair
    has the station id [s] it is "episode_id" if [s] is onsen.ag or
    hibiki-radio.jp and "datetime" if not. With [sort_by] set to anything
    but "datetime" or "episode_id", [create] raises the [ValueError] that
    stands for an invalid argument. *)
Theorem create_sort_by_policy (program_and_id_pairs : list pair) :
  (program_and_id_pairs <> [] ->
   ((exists x y, In x program_and_id_pairs /\ In y program_and_id_pairs
                 /\ station_of x <> station_of y) ->
    create_sort_by program_and_id_pairs None = Ok "datetime")
   /\ (forall s : string,
         (forall x, In x program_and_id_pairs -> station_of x = s) ->
         (In s episode_id_stations ->
          create_sort_by program_and_id_pairs None = Ok "episode_id")
         /\ (~ In s episode_id_stations ->
             create_sort_by program_and_id_pairs None = Ok "datetime")))
  /\ (forall (w : world) (self : PodcastRssFeedGenCreator.t)
             (channel : option PodcastChannel.t) (sort_by : string)
             (from_oldest remove_duplicates : bool),
        sort_by <> "datetime" -> sort_by <> "episode_id" ->
        exists msg,
          create w self program_and_id_pairs channel (Some sort_by)
            from_oldest remove_duplicates = Raise (ValueError msg)).
Proof.
  split.
  - intros Hne. split.
    + intros [x [y [Hx [Hy Hxy]]]].
      unfold create_sort_by, count_station_ids.
      assert (H : (1 < List.length (nodup string_dec
                     (map (fun x : pair => Program.station_id (fst x))
                          program_and_id_pairs)))%nat).
      { apply (two_distinct_count _ (station_of x) (station_of y)).
        - apply in_map_iff. exists x. auto.
        - apply in_map_iff. exists y. auto.
        - exact Hxy. }
      apply Nat.ltb_lt in H. rewrite H. reflexivity.
    + intros s Hall.
      assert (H : Nat.ltb 1 (count_station_ids program_and_id_pairs) = false).
      { apply Nat.ltb_ge. unfold count_station_ids.
        apply (one_shared_count _ s).
        intros n Hn. apply in_map_iff in Hn. destruct Hn as [x [<- Hx]].
        apply Hall. exact Hx. }
      unfold create_sort_by. rewrite H.
      destruct program_and_id_pairs as [| first rest]; [congruence |].
      pose proof (Hall first (or_introl eq_refl)) as Hfirst.
      unfold station_of in Hfirst.
      unfold index_first, Py.bind. rewrite Hfirst.
      fold episode_id_stations.
      split; intros Hs.
      * apply (proj2 (in_list_In s episode_id_stations)) in Hs.
        rewrite Hs. reflexivity.
      * destruct (in_list s episode_id_stations) eqn:E; [| reflexivity].
        apply (proj1 (in_list_In s episode_id_stations)) in E. contradiction.
  - intros w self channel sort_by from_oldest remove_duplicates Hd He.
    unfold create, create_pairs, create_sort_by.
    assert (H : in_list sort_by available_sort_by = false).
    { destruct (in_list sort_by available_sort_by) eqn:E; [| reflexivity].
      apply in_list_In in E. simpl in E.
      destruct E as [E | [E | []]]; congruence. }
    rewrite H. simpl. eexists. reflexivity.
Qed.

(** Two stations, one listed station, one unlisted station, and a sort key
    that is neither of the two names. *)
Lemma create_sort_by_policy_witness :
  create_sort_by
    [(Examples.ep_a, Examples.oid1);
     (Examples.program "onsen.ag" "Other" None None None, Examples.oid2)] None
  = Ok "datetime"
  /\ create_sort_by
       [(Examples.program "onsen.ag" "Show" (Some (Program.IdInt 3)) None None,
         Examples.oid1)] None
     = Ok "episode_id"
  /\ create_sort_by [(Examples.ep_a, Examples.oid1)] None = Ok "datetime"
  /\ exists msg,
       create Examples.tbs_world Examples.creator [(Examples.ep_a, Examples.oid1)]
         None (Some "name") false true = Raise (ValueError msg).
Proof.
  split; [| split; [| split]].
  - apply (proj1 (create_sort_by_policy
                    [(Examples.ep_a, Examples.oid1);
                     (Examples.program "onsen.ag" "Other" None None None,
                      Examples.oid2)])).
    + discriminate.
    + exists (Examples.ep_a, Examples.oid1),
        (Examples.program "onsen.ag" "Other" None None None, Examples.oid2).
      simpl. repeat split; auto. discriminate.
  - apply (proj1 (create_sort_by_policy
                    [(Examples.program "onsen.ag" "Show" (Some (Program.IdInt 3))
                        None None, Examples.oid1)]))
      with (s := "onsen.ag").
    + discriminate.
    + intros x [<- | []]. reflexivity.
    + left. reflexivity.
  - apply (proj1 (create_sort_by_policy [(Examples.ep_a, Examples.oid1)]))
      with (s := "TBS").
    + discriminate.
    + intros x [<- | []]. reflexivity.
    + simpl. intros [E | [E | []]]; discriminate E.
  - apply (proj2 (create_sort_by_policy [(Examples.ep_a, Examples.oid1)]));
      discriminate.
Defined.

(** ** Equality of attribute values *)

Lemma lex_compare_refl (a : list Z) : Datetime.lex_compare a a = Eq.
Proof.
  induction a as [| x a IH]; simpl; [reflexivity |].
  rewrite Z.compare_refl. exact IH.
Qed.

Lemma lex_compare_eq (a b : list Z) : Datetime.lex_compare a b = Eq -> a = b.
Proof.
  revert b. induction a as [| x a IH]; intros [| y b]; simpl; try discriminate.
  - reflexivity.
  - destruct (Z.compare_spec x y) as [-> | _ | _]; try discriminate.
    intros H. f_equal. apply IH. exact H.
Qed.

Lemma lex_compare_antisym (a b : list Z) :
  Datetime.lex_compare a b = CompOpp (Datetime.lex_compare b a).
Proof.
  revert b. induction a as [| x a IH]; intros [| y b]; simpl; try reflexivity.
  rewrite (Z.compare_antisym y x).
  destruct (y ?= x); simpl; auto.
Qed.

Lemma datetime_eqb_refl (d : Datetime.datetime) : Datetime.eqb d d = true.
Proof.
  unfold Datetime.eqb. destruct (Datetime.instant d).
  - apply Z.eqb_refl.
  - rewrite lex_compare_refl. reflexivity.
Qed.

Lemma datetime_eqb_sym (d e : Datetime.datetime) :
  Datetime.eqb d e = Datetime.eqb e d.
Proof.
  unfold Datetime.eqb.
  destruct (Datetime.instant d), (Datetime.instant e); try reflexivity.
  - apply Z.eqb_sym.
  - rewrite (lex_compare_antisym (Datetime.fields d) (Datetime.fields e)).
    destruct (Datetime.lex_compare (Datetime.fields e) (Datetime.fields d));
      reflexivity.
Qed.

Lemma datetime_eqb_trans (d e f : Datetime.datetime) :
  Datetime.eqb d e = true -> Datetime.eqb e f = true -> Datetime.eqb d f = true.
Proof.
  unfold Datetime.eqb.
  destruct (Datetime.instant d), (Datetime.instant e), (Datetime.instant f);
    try discriminate.
  - rewrite !Z.eqb_eq. congruence.
  - destruct (Datetime.lex_compare (Datetime.fields d) (Datetime.fields e)) eqn:E1;
      try discriminate.
    destruct (Datetime.lex_compare (Datetime.fields e) (Datetime.fields f)) eqn:E2;
      try discriminate.
    apply lex_compare_eq in E1. apply lex_compare_eq in E2.
    rewrite E1, E2, lex_compare_refl. reflexivity.
Qed.

Lemma value_eqb_refl (a : Value.value) : Value.eqb a a = true.
Proof.
  destruct a; simpl.
  - reflexivity.
  - apply Z.eqb_refl.
  - apply String.eqb_refl.
  - apply datetime_eqb_refl.
Qed.

Lemma value_eqb_sym (a b : Value.value) : Value.eqb a b = Value.eqb b a.
Proof.
  destruct a, b; simpl; try reflexivity.
  - apply Z.eqb_sym.
  - apply String.eqb_sym.
  - apply datetime_eqb_sym.
Qed.

Lemma value_eqb_trans (a b c : Value.value) :
  Value.eqb a b = true -> Value.eqb b c = true -> Value.eqb a c = true.
Proof.
  destruct a, b, c; simpl; try discriminate; try reflexivity.
  - rewrite !Z.eqb_eq. congruence.
  - rewrite !String.eqb_eq. congruence.
  - apply datetime_eqb_trans.
Qed.

(** Equal values cannot be told apart by a comparison with a third. *)
Lemma value_eqb_congr (a b c : Value.value) :
  Value.eqb a b = true -> Value.eqb a c = Value.eqb b c.
Proof.
  intros Hab.
  destruct (Value.eqb b c) eqn:Hbc.
  - apply (value_eqb_trans a b c); assumption.
  - destruct (Value.eqb a c) eqn:Hac; [| reflexivity].
    rewrite <- Hbc. symmetry.
    apply (value_eqb_trans b a c); [| exact Hac].
    rewrite value_eqb_sym. exact Hab.
Qed.

(** ** Duplicate suppression *)

Lemma fold_dedup_step (l : list pair) (st : dedup_state) :
  unique_pairs (fold_left dedup_step l st)
  = (unique_pairs st ++ unique_from (prev_datetime st) (prev_episode_id st) l)%list.
Proof.
  revert st. induction l as [| [program program_id] rest IH]; intros st; simpl.
  - rewrite app_nil_r. reflexivity.
  - rewrite IH. simpl. unfold differs, datetime_of, episode_id_of. simpl.
    destruct (Value.neb (prev_datetime st) (Program.datetime_value program)
              && Value.neb (prev_episode_id st) (Program.episode_id_value program))%bool.
    + rewrite <- app_assoc. reflexivity.
    + reflexivity.
Qed.

Lemma create_unique_pairs_unfold (l : list pair) :
  create_unique_pairs l = unique_from Value.VNone Value.VNone l.
Proof.
  unfold create_unique_pairs. rewrite fold_dedup_step. reflexivity.
Qed.

Lemma unique_from_kept_after (prev : pair) (l : list pair) :
  unique_from (datetime_of prev) (episode_id_of prev) l = kept_after prev l.
Proof.
  revert prev. induction l as [| x rest IH]; intros prev; simpl.
  - reflexivity.
  - rewrite IH. reflexivity.
Qed.

(** The pass follows the rule on every sequence whose first item has both a
    datetime and an episode id. *)
Lemma create_unique_pairs_rule (x : pair) (rest : list pair) :
  datetime_of x <> Value.VNone -> episode_id_of x <> Value.VNone ->
  create_unique_pairs (x :: rest) = first_and_differing (x :: rest).
Proof.
  intros Hd He. rewrite create_unique_pairs_unfold. simpl.
  rewrite unique_from_kept_after.
  unfold differs.
  destruct (datetime_of x); [congruence | | |];
    destruct (episode_id_of x); try congruence; reflexivity.
Qed.

(** Whatever the first item holds, the items after it follow the rule. *)
Lemma create_unique_pairs_later (x : pair) (rest : list pair) :
  create_unique_pairs (x :: rest)
  = ((if differs Value.VNone Value.VNone x then [x] else []) ++ kept_after x rest)%list.
Proof.
  rewrite create_unique_pairs_unfold. simpl. rewrite unique_from_kept_after.
  destruct (differs Value.VNone Value.VNone x); reflexivity.
Qed.

(** C2, evaluated: the pass starts with [None] as the previous datetime and
    episode id, so a first item whose datetime or episode id is [None] is not
    kept. A single episode without a datetime leaves an empty sequence:
    [create] then raises [IndexError] while choosing the channel, or, given a
    channel, returns a feed without entries. In a feed of two dated episodes
    the newest one is lost when it has no episode id. *)
Theorem first_item_with_none_is_dropped :
  create_unique_pairs [(Examples.ep_no_datetime, Examples.oid1)] = []
  /\ first_and_differing [(Examples.ep_no_datetime, Examples.oid1)]
     = [(Examples.ep_no_datetime, Examples.oid1)]
  /\ create Examples.tbs_world Examples.creator
       [(Examples.ep_no_datetime, Examples.oid1)] None None false true
     = Raise IndexError
  /\ (exists fg,
        create Examples.tbs_world Examples.creator
          [(Examples.ep_no_datetime, Examples.oid1)]
          (Some Examples.some_channel) None false true = Ok fg
        /\ FeedGenerator.entries fg = [])
  /\ create_pairs
       [(Examples.ep7, Examples.oid1); (Examples.ep_no_episode_id, Examples.oid2)]
       None false true
     = Ok [(Examples.ep7, Examples.oid1)].
Proof.
  repeat split; try reflexivity.
  eexists. split; reflexivity.
Qed.

Lemma differs_congr (pd pe qd qe : Value.value) (x : pair) :
  Value.eqb qd pd = true -> Value.eqb qe pe = true ->
  differs qd qe x = differs pd pe x.
Proof.
  intros Hd He. unfold differs, Value.neb.
  rewrite (value_eqb_congr qd pd _ Hd), (value_eqb_congr qe pe _ He).
  reflexivity.
Qed.

Lemma unique_from_fixed (l : list pair) :
  forall pd pe qd qe : Value.value,
    Value.eqb qd pd = true -> Value.eqb qe pe = true ->
    repeats_agree_from pd pe l ->
    unique_from qd qe (unique_from pd pe l) = unique_from pd pe l.
Proof.
  induction l as [| x rest IH]; intros pd pe qd qe Hd He Hagree; simpl.
  - reflexivity.
  - destruct Hagree as [Hx Hrest].
    destruct (differs pd pe x) eqn:Hkeep.
    + simpl. rewrite (differs_congr pd pe qd qe x Hd He), Hkeep.
      f_equal. apply IH; auto using value_eqb_refl.
    + apply IH; [| | exact Hrest].
      * unfold differs, Value.neb in Hkeep.
        destruct (Value.eqb pd (datetime_of x)) eqn:E.
        -- apply (value_eqb_trans qd pd _ Hd E).
        -- rewrite <- Hx in Hkeep. simpl in Hkeep. discriminate.
      * unfold differs, Value.neb in Hkeep.
        destruct (Value.eqb pe (episode_id_of x)) eqn:E.
        -- apply (value_eqb_trans qe pe _ He E).
        -- rewrite Hx in Hkeep. simpl in Hkeep. discriminate.
Qed.

(** On a sequence in which every item repeats the datetime of the item
    before it exactly when it repeats that item's episode id, the output of
    the pass is a fixed point of the pass. *)
Lemma create_unique_pairs_fixed_when_repeats_agree (l : list pair) :
  repeats_agree l ->
  create_unique_pairs (create_unique_pairs l) = create_unique_pairs l.
Proof.
  intros H. rewrite !create_unique_pairs_unfold.
  apply unique_from_fixed; auto.
Qed.

(** C3, refuted as stated: the three episodes below are in ascending datetime
    order; the pass drops the second for its repeated datetime and keeps the
    third, which differs from the second in both fields; run on that output
    the pass drops the third, whose episode id repeats the first's. *)
Lemma create_unique_pairs_not_idempotent :
  create_sorted
    [(Examples.ep_a, Examples.oid1); (Examples.ep_b, Examples.oid2);
     (Examples.ep_c, Examples.oid3)] "datetime" true
  = Ok [(Examples.ep_a, Examples.oid1); (Examples.ep_b, Examples.oid2);
        (Examples.ep_c, Examples.oid3)]
  /\ create_unique_pairs
       [(Examples.ep_a, Examples.oid1); (Examples.ep_b, Examples.oid2);
        (Examples.ep_c, Examples.oid3)]
     = [(Examples.ep_a, Examples.oid1); (Examples.ep_c, Examples.oid3)]
  /\ create_unique_pairs
       [(Examples.ep_a, Examples.oid1); (Examples.ep_c, Examples.oid3)]
     = [(Examples.ep_a, Examples.oid1)]
  /\ create_unique_pairs
       (create_unique_pairs
          [(Examples.ep_a, Examples.oid1); (Examples.ep_b, Examples.oid2);
           (Examples.ep_c, Examples.oid3)])
     <> create_unique_pairs
          [(Examples.ep_a, Examples.oid1); (Examples.ep_b, Examples.oid2);
           (Examples.ep_c, Examples.oid3)].
Proof.
  repeat split; try reflexivity.
  vm_compute. discriminate.
Qed.

(** ** The order of attribute values *)

Section CompareOrder.

Context {X : Type} (cmp : X -> X -> comparison).
Hypothesis cmp_antisym : forall a b, cmp a b = CompOpp (cmp b a).
Hypothesis cmp_eq : forall a b, cmp a b = Eq -> a = b.
Hypothesis cmp_lt_trans :
  forall a b c, cmp a b = Lt -> cmp b c = Lt -> cmp a c = Lt.

Lemma below_asym (a b : X) : below cmp a b = true -> below cmp b a = false.
Proof.
  unfold below. rewrite (cmp_antisym b a).
  destruct (cmp a b); simpl; congruence.
Qed.

Lemma below_negative_trans (a b c : X) :
  below cmp b a = false -> below cmp c b = false -> below cmp c a = false.
Proof.
  unfold below. intros Hba Hcb.
  destruct (cmp c a) eqn:Hca; try reflexivity.
  destruct (cmp b a) eqn:Eba; try discriminate.
  - apply cmp_eq in Eba. subst b. rewrite Hca in Hcb. discriminate.
  - assert (Hab : cmp a b = Lt).
    { rewrite cmp_antisym, Eba. reflexivity. }
    rewrite (cmp_lt_trans c a b Hca Hab) in Hcb. discriminate.
Qed.

Lemma below_irrefl (a : X) : below cmp a a = false.
Proof.
  unfold below. pose proof (cmp_antisym a a) as H.
  destruct (cmp a a); simpl in H; congruence.
Qed.

End CompareOrder.

Lemma lex_compare_lt_trans (a b c : list Z) :
  Datetime.lex_compare a b = Lt -> Datetime.lex_compare b c = Lt ->
  Datetime.lex_compare a c = Lt.
Proof.
  revert b c. induction a as [| x a IH]; intros [| y b] [| z c]; simpl;
    try discriminate; try reflexivity.
  destruct (Z.compare_spec x y) as [-> | Hxy | Hxy]; try discriminate.
  - destruct (Z.compare_spec y z) as [-> | Hyz | Hyz]; try discriminate.
    + apply IH.
    + reflexivity.
  - intros _.
    destruct (Z.compare_spec y z) as [-> | Hyz | Hyz]; try discriminate.
    + intros _. destruct (Z.compare_spec x z); try reflexivity; lia.
    + intros _. destruct (Z.compare_spec x z); try reflexivity; lia.
Qed.

Lemma string_compare_lt_trans (a b c : string) :
  String.compare a b = Lt -> String.compare b c = Lt -> String.compare a c = Lt.
Proof.
  intros Hab Hbc.
  apply (proj2 (String_as_OT.cmp_lt a c)).
  apply (String_as_OT.lt_trans a b c).
  - apply (proj1 (String_as_OT.cmp_lt a b)). exact Hab.
  - apply (proj1 (String_as_OT.cmp_lt b c)). exact Hbc.
Qed.

Lemma datetime_ltb_cases (d e : Datetime.datetime) (r : bool) :
  Datetime.ltb d e = Ok r ->
  (Datetime.instant d = None /\ Datetime.instant e = None
   /\ r = below Datetime.lex_compare (Datetime.fields d) (Datetime.fields e))
  \/ (exists i j, Datetime.instant d = Some i /\ Datetime.instant e = Some j
                  /\ r = (i <? j)).
Proof.
  unfold Datetime.ltb.
  destruct (Datetime.instant d) as [i |], (Datetime.instant e) as [j |];
    intros H; try discriminate; injection H as <-.
  - right. exists i, j. auto.
  - left. auto.
Qed.

Lemma value_ltb_asym (a b : Value.value) :
  Value.ltb a b = Ok true -> Value.ltb b a = Ok false.
Proof.
  destruct a as [| x | x | d], b as [| y | y | e]; simpl; try discriminate.
  - intros H. injection H as H. f_equal. lia.
  - intros H. injection H as H. f_equal.
    apply (below_asym String.compare String.compare_antisym x y H).
  - intros H. apply datetime_ltb_cases in H.
    unfold Datetime.ltb.
    destruct H as [[-> [-> H]] | [i [j [-> [-> H]]]]]; f_equal.
    + symmetry in H. apply (below_asym _ lex_compare_antisym _ _ H).
    + lia.
Qed.

Lemma value_not_above_trans (a b c : Value.value) :
  not_above a b -> not_above b c -> not_above a c.
Proof.
  unfold not_above.
  destruct a as [| x | x | d], b as [| y | y | e], c as [| z | z | f]; simpl;
    try discriminate.
  - intros H1 H2. injection H1 as H1. injection H2 as H2. f_equal. lia.
  - intros H1 H2. injection H1 as H1. injection H2 as H2. f_equal.
    apply (below_negative_trans String.compare String.compare_antisym
             String.compare_eq_iff string_compare_lt_trans x y z H1 H2).
  - intros H1 H2.
    apply datetime_ltb_cases in H1. apply datetime_ltb_cases in H2.
    unfold Datetime.ltb.
    destruct H1 as [[E1 [E2 H1]] | [i [j [E1 [E2 H1]]]]];
      destruct H2 as [[E3 [E4 H2]] | [k [l [E3 [E4 H2]]]]];
      try congruence.
    + rewrite E3, E2. f_equal. symmetry in H1, H2.
      apply (below_negative_trans _ lex_compare_antisym lex_compare_eq
               lex_compare_lt_trans _ _ _ H1 H2).
    + rewrite E3, E2. f_equal.
      assert (i = l) by congruence. lia.
Qed.

Lemma value_eqb_not_below (a b : Value.value) :
  Value.eqb a b = true -> Value.ltb a b <> Ok true.
Proof.
  destruct a as [| x | x | d], b as [| y | y | e]; simpl; try discriminate.
  - intros H E. injection E as E. lia.
  - intros H E. injection E as E. apply String.eqb_eq in H. subst y.
    rewrite (below_irrefl String.compare String.compare_antisym x : String.ltb x x = false) in E.
    discriminate.
  - intros H E. apply datetime_ltb_cases in E.
    unfold Datetime.eqb in H.
    destruct E as [[E1 [E2 E]] | [i [j [E1 [E2 E]]]]]; rewrite E1, E2 in H.
    + unfold below in E.
      destruct (Datetime.lex_compare (Datetime.fields d) (Datetime.fields e));
        discriminate.
    + lia.
Qed.

(** ** The builtin [sorted] is a stable sort *)

Section SortedProperties.

Context {A : Type}.

Local Abbreviation item := (Value.value * A)%type.

Lemma insert_permutation (kx : item) (run r : list item) :
  Builtins.insert kx run = Ok r -> Permutation (kx :: run) r.
Proof.
  revert r. induction run as [| ky run IH]; intros r; simpl.
  - intros H. injection H as <-. apply Permutation_refl.
  - intros H. bind_inv H. destruct a.
    + bind_inv H. injection H as <-.
      apply perm_trans with (ky :: kx :: run); [apply perm_swap |].
      apply perm_skip. apply IH. exact Ha0.
    + injection H as <-. apply Permutation_refl.
Qed.

Lemma insert_total (kx : item) (run : list item) :
  (forall ky, In ky run -> exists b, Value.ltb (fst ky) (fst kx) = Ok b) ->
  exists r, Builtins.insert kx run = Ok r.
Proof.
  induction run as [| ky run IH]; intros H; simpl.
  - eexists. reflexivity.
  - destruct (H ky (or_introl eq_refl)) as [b ->]. simpl.
    destruct b.
    + destruct IH as [r ->].
      * intros kz Hz. apply H. right. exact Hz.
      * simpl. eexists. reflexivity.
    + eexists. reflexivity.
Qed.

Lemma insert_ascending (kx : item) (run r : list item) :
  StronglySorted ascending run ->
  Builtins.insert kx run = Ok r ->
  StronglySorted ascending r.
Proof.
  revert r. induction run as [| ky run IH]; intros r Hsorted; simpl.
  - intros H. injection H as <-. repeat constructor.
  - apply StronglySorted_inv in Hsorted. destruct Hsorted as [Hrun Hky].
    intros H. bind_inv H. destruct a.
    + bind_inv H. injection H as <-.
      constructor.
      * apply IH; assumption.
      * apply (Permutation_Forall (insert_permutation kx run a Ha0)).
        constructor; [| exact Hky].
        unfold ascending, not_above. apply value_ltb_asym. exact Ha.
    + injection H as <-.
      constructor.
      * constructor; assumption.
      * constructor; [exact Ha |].
        apply Forall_forall. intros kz Hz.
        rewrite Forall_forall in Hky.
        apply (value_not_above_trans (fst kx) (fst ky) (fst kz)).
        -- exact Ha.
        -- apply Hky. exact Hz.
Qed.

Lemma insert_with_key (kx : item) (run r : list item) (k : Value.value) :
  Builtins.insert kx run = Ok r ->
  with_key k r = with_key k (kx :: run).
Proof.
  revert r. induction run as [| ky run IH]; intros r; simpl.
  - intros H. injection H as <-. reflexivity.
  - intros H. bind_inv H. destruct a.
    + bind_inv H. injection H as <-.
      simpl. rewrite (IH a Ha0). simpl.
      destruct (Value.eqb (fst ky) k) eqn:Ey; [| reflexivity].
      destruct (Value.eqb (fst kx) k) eqn:Ex; [| reflexivity].
      exfalso. apply (value_eqb_not_below (fst ky) (fst kx)); [| exact Ha].
      apply (value_eqb_trans _ k _ Ey). rewrite value_eqb_sym. exact Ex.
    + injection H as <-. reflexivity.
Qed.

Lemma orderable_tail (kx : item) (l : list item) :
  orderable (kx :: l) -> orderable l.
Proof.
  intros H ky kz Hy Hz. apply H; right; assumption.
Qed.

(** On orderable keys the sort returns: a permutation of its input, in
    ascending key order, with the elements of each key in input order. *)
Lemma stable_sort_correct (l : list item) :
  orderable l ->
  exists s,
    Builtins.stable_sort l = Ok s
    /\ Permutation l s
    /\ StronglySorted ascending s
    /\ forall k, with_key k s = with_key k l.
Proof.
  induction l as [| kx l IH]; intros Hord; simpl.
  - exists []. repeat split; constructor.
  - destruct (IH (orderable_tail kx l Hord)) as [s [-> [Hperm [Hsorted Hkeys]]]].
    simpl.
    destruct (insert_total kx s) as [r Hr].
    { intros ky Hy. apply Hord; [right | left; reflexivity].
      apply (Permutation_in _ (Permutation_sym Hperm)). exact Hy. }
    exists r. split; [exact Hr |]. split; [| split].
    + apply perm_trans with (kx :: s).
      * apply perm_skip. exact Hperm.
      * apply insert_permutation. exact Hr.
    + apply (insert_ascending kx s r Hsorted Hr).
    + intros k. rewrite (insert_with_key kx s r k Hr).
      unfold with_key in *. simpl. rewrite Hkeys. reflexivity.
Qed.

Lemma with_key_rev (k : Value.value) (l : list item) :
  with_key k (rev l) = rev (with_key k l).
Proof. apply filter_rev. Qed.

Lemma orderable_rev (l : list item) : orderable l -> orderable (rev l).
Proof.
  intros H kx ky Hx Hy. apply H; apply in_rev; assumption.
Qed.

Lemma StronglySorted_snoc (R : item -> item -> Prop) (l : list item) (a : item) :
  StronglySorted R l -> Forall (fun z => R z a) l -> StronglySorted R (l ++ [a]).
Proof.
  induction 1 as [| b l Hl IH Hb]; intros Ha; simpl.
  - repeat constructor.
  - apply Forall_cons_iff in Ha. destruct Ha as [Hba Ha].
    constructor.
    + apply IH. exact Ha.
    + apply Forall_app. split; [exact Hb | repeat constructor; exact Hba].
Qed.

(** Reversing an ascending list gives a descending one. *)
Lemma StronglySorted_rev (R : item -> item -> Prop) (l : list item) :
  StronglySorted R l -> StronglySorted (fun a b => R b a) (rev l).
Proof.
  induction 1 as [| a l Hl IH Ha]; simpl.
  - constructor.
  - apply StronglySorted_snoc; [exact IH |].
    apply Forall_forall. intros z Hz.
    rewrite Forall_forall in Ha. apply Ha. apply in_rev. exact Hz.
Qed.

(** *** Undecorating *)

Variable key : A -> Value.value.

Lemma map_snd_decorate (l : list A) : map snd (map (decorate key) l) = l.
Proof.
  induction l as [| x l IH]; simpl; [reflexivity | rewrite IH; reflexivity].
Qed.

Lemma Forall_decorated (l : list A) : Forall (decorated key) (map (decorate key) l).
Proof.
  apply Forall_forall. intros kx H. apply in_map_iff in H.
  destruct H as [x [<- _]]. reflexivity.
Qed.

Lemma with_key_undecorate (k : Value.value) (s : list item) :
  Forall (decorated key) s ->
  filter (fun x => Value.eqb (key x) k) (map snd s) = map snd (with_key k s).
Proof.
  induction 1 as [| kx s Hkx _ IH]; simpl; [reflexivity |].
  unfold decorated in Hkx. rewrite <- Hkx.
  destruct (Value.eqb (fst kx) k); simpl; rewrite IH; reflexivity.
Qed.

Lemma StronglySorted_undecorate (R : Value.value -> Value.value -> Prop)
  (s : list item) :
  Forall (decorated key) s ->
  StronglySorted (fun kx ky => R (fst kx) (fst ky)) s ->
  StronglySorted (fun x y => R (key x) (key y)) (map snd s).
Proof.
  intros Hdec Hsorted.
  induction Hsorted as [| kx s Hs IH Hkx]; simpl.
  - constructor.
  - apply Forall_cons_iff in Hdec. destruct Hdec as [Hd Hdec].
    constructor; [apply IH; exact Hdec |].
    apply Forall_forall. intros y Hy. apply in_map_iff in Hy.
    destruct Hy as [ky [<- Hin]].
    rewrite Forall_forall in Hkx, Hdec.
    unfold decorated in Hd. rewrite <- Hd, <- (Hdec ky Hin).
    apply Hkx. exact Hin.
Qed.

(** [sorted] on orderable keys: it returns a permutation of its input in
    the requested order, and the elements that share a key come out in
    the order they went in. *)
Lemma sorted_correct (reverse : bool) (l : list A) :
  (forall x y, In x l -> In y l -> exists b, Value.ltb (key x) (key y) = Ok b) ->
  exists s,
    Builtins.sorted key reverse l = Ok s
    /\ Permutation l s
    /\ StronglySorted (in_order key reverse) s
    /\ forall k, filter (fun x => Value.eqb (key x) k) s
                 = filter (fun x => Value.eqb (key x) k) l.
Proof.
  intros Hord.
  assert (Hd : orderable (map (decorate key) l)).
  { intros kx ky Hx Hy. apply in_map_iff in Hx, Hy.
    destruct Hx as [x [<- Hx]]. destruct Hy as [y [<- Hy]].
    apply Hord; assumption. }
  unfold Builtins.sorted. fold (decorate key).
  destruct reverse.
  - destruct (stable_sort_correct (rev (map (decorate key) l)) (orderable_rev _ Hd))
      as [s [-> [Hperm [Hsorted Hkeys]]]].
    simpl. eexists. split; [reflexivity |].
    assert (Hdec : Forall (decorated key) (rev s)).
    { apply (Permutation_Forall (Permutation_rev s)).
      apply (Permutation_Forall Hperm).
      apply (Permutation_Forall (Permutation_rev (map (decorate key) l))).
      apply Forall_decorated. }
    split; [| split].
    + rewrite <- (map_snd_decorate l) at 1. apply Permutation_map.
      apply perm_trans with (rev (map (decorate key) l)); [apply Permutation_rev |].
      apply perm_trans with s; [exact Hperm | apply Permutation_rev].
    + apply (StronglySorted_undecorate (fun a b => not_above b a) (rev s) Hdec).
      apply (StronglySorted_rev ascending s Hsorted).
    + intros k. rewrite (with_key_undecorate k (rev s) Hdec).
      rewrite with_key_rev, Hkeys, with_key_rev, rev_involutive.
      rewrite <- (with_key_undecorate k (map (decorate key) l) (Forall_decorated l)).
      rewrite map_snd_decorate. reflexivity.
  - destruct (stable_sort_correct (map (decorate key) l) Hd)
      as [s [-> [Hperm [Hsorted Hkeys]]]].
    simpl. eexists. split; [reflexivity |].
    assert (Hdec : Forall (decorated key) s).
    { apply (Permutation_Forall Hperm). apply Forall_decorated. }
    split; [| split].
    + rewrite <- (map_snd_decorate l) at 1. apply Permutation_map. exact Hperm.
    + apply (StronglySorted_undecorate not_above s Hdec). exact Hsorted.
    + intros k. rewrite (with_key_undecorate k s Hdec), Hkeys.
      rewrite <- (with_key_undecorate k (map (decorate key) l) (Forall_decorated l)).
      rewrite map_snd_decorate. reflexivity.
Qed.

End SortedProperties.

(** Integer episode ids can be ordered. *)
Lemma orderable_int_episode_ids (l : list pair) :
  (forall x, In x l -> exists n, Program.episode_id (fst x) = Some (Program.IdInt n)) ->
  forall x y, In x l -> In y l ->
    exists b, Value.ltb (sort_key "episode_id" x) (sort_key "episode_id" y) = Ok b.
Proof.
  intros H x y Hx Hy.
  destruct (H x Hx) as [n Hn]. destruct (H y Hy) as [m Hm].
  unfold sort_key, Program.getattr, Program.episode_id_value. simpl.
  rewrite Hn, Hm. simpl. eexists. reflexivity.
Qed.

(** Naive datetimes can be ordered. *)
Lemma orderable_naive_datetimes (l : list pair) :
  (forall x, In x l ->
     exists d, Program.datetime (fst x) = Some d /\ Datetime.tz d = None) ->
  forall x y, In x l -> In y l ->
    exists b, Value.ltb (sort_key "datetime" x) (sort_key "datetime" y) = Ok b.
Proof.
  intros H x y Hx Hy.
  destruct (H x Hx) as [d [Hd Hdz]]. destruct (H y Hy) as [e [He Hez]].
  unfold sort_key, Program.getattr, Program.datetime_value. simpl.
  rewrite Hd, He. simpl. unfold Datetime.ltb, Datetime.instant.
  rewrite Hdz, Hez. eexists. reflexivity.
Qed.

(** C6: whenever the keys of the pairs can be ordered, the sort of [create]
    returns a permutation of the pairs that is in descending key order when
    [from_oldest] is false and in ascending key order when it is true, and
    in both cases the pairs that share a key keep their input order. *)
Theorem create_sorted_stable
  (program_and_id_pairs : list pair) (sort_by : string) (from_oldest : bool) :
  (forall x y, In x program_and_id_pairs -> In y program_and_id_pairs ->
               exists b, Value.ltb (sort_key sort_by x) (sort_key sort_by y) = Ok b) ->
  exists sorted_pairs,
    create_sorted program_and_id_pairs sort_by from_oldest = Ok sorted_pairs
    /\ Permutation program_and_id_pairs sorted_pairs
    /\ (if from_oldest
        then StronglySorted
               (fun x y => not_above (sort_key sort_by x) (sort_key sort_by y))
               sorted_pairs
        else StronglySorted
               (fun x y => not_above (sort_key sort_by y) (sort_key sort_by x))
               sorted_pairs)
    /\ forall k : Value.value,
         filter (fun x => Value.eqb (sort_key sort_by x) k) sorted_pairs
         = filter (fun x => Value.eqb (sort_key sort_by x) k) program_and_id_pairs.
Proof.
  intros Hord.
  destruct (sorted_correct (sort_key sort_by) (negb from_oldest)
              program_and_id_pairs Hord) as [s [Hs [Hperm [Hsorted Hkeys]]]].
  exists s. split; [exact Hs |]. split; [exact Hperm |]. split; [| exact Hkeys].
  destruct from_oldest; exact Hsorted.
Qed.

(** Three dated episodes, newest first. *)
Lemma create_sorted_stable_witness :
  exists sorted_pairs,
    create_sorted
      [(Examples.ep_a, Examples.oid1); (Examples.ep_d, Examples.oid3);
       (Examples.ep_b, Examples.oid2)] "datetime" false = Ok sorted_pairs
    /\ Permutation
         [(Examples.ep_a, Examples.oid1); (Examples.ep_d, Examples.oid3);
          (Examples.ep_b, Examples.oid2)] sorted_pairs.
Proof.
  destruct (create_sorted_stable
              [(Examples.ep_a, Examples.oid1); (Examples.ep_d, Examples.oid3);
               (Examples.ep_b, Examples.oid2)] "datetime" false)
    as [s [Hs [Hperm _]]].
  - intros x y Hx Hy. simpl in Hx, Hy.
    destruct Hx as [<- | [<- | [<- | []]]];
      destruct Hy as [<- | [<- | [<- | []]]]; eexists; reflexivity.
  - exists s. split; assumption.
Defined.

(** The sort of the three episodes above, newest first: the two episodes of
    the same datetime stay in input order. *)
Example create_sorted_newest_first :
  create_sorted
    [(Examples.ep_a, Examples.oid1); (Examples.ep_d, Examples.oid3);
     (Examples.ep_b, Examples.oid2)] "datetime" false
  = Ok [(Examples.ep_d, Examples.oid3); (Examples.ep_a, Examples.oid1);
        (Examples.ep_b, Examples.oid2)].
Proof. reflexivity. Qed.

(** ** The channel *)

(** Appending the items leaves the channel tags alone. *)
Lemma create_items_channel (w : world) (self : PodcastRssFeedGenCreator.t)
  (l : list pair) :
  forall fg fg' : FeedGenerator.t,
    create_items w self fg l = Ok fg' -> without_entries fg' = without_entries fg.
Proof.
  induction l as [| [program program_id] rest IH]; intros fg fg'; simpl.
  - intros H. injection H as <-. reflexivity.
  - intros H. bind_inv H. bind_inv H.
    rewrite (IH _ _ H). reflexivity.
Qed.

(** C7 (as the code has it): when [create] returns a feed and no channel was
    passed, the channel tags are those of exactly one record: the one at the
    most recent end of the sequence the items are built from, which is the
    sorted sequence after duplicate suppression (the sorted sequence itself
    when [remove_duplicates] is false) - its last pair when [from_oldest] is
    true, its first pair when it is false. *)
Theorem create_channel_from_surviving_end
  (w : world) (self : PodcastRssFeedGenCreator.t) (program_and_id_pairs : list pair)
  (sort_by : option string) (from_oldest remove_duplicates : bool)
  (fg : FeedGenerator.t) :
  create w self program_and_id_pairs None sort_by from_oldest remove_duplicates
  = Ok fg ->
  exists (sort_by' : string) (sorted_pairs : list pair) (latest : pair),
    create_sort_by program_and_id_pairs sort_by = Ok sort_by'
    /\ create_sorted program_and_id_pairs sort_by' from_oldest = Ok sorted_pairs
    /\ (if from_oldest
        then index_last (if remove_duplicates
                         then create_unique_pairs sorted_pairs else sorted_pairs)
        else index_first (if remove_duplicates
                          then create_unique_pairs sorted_pairs else sorted_pairs))
       = Ok latest
    /\ without_entries fg
       = PodcastChannel.to_feed_generator (PodcastChannel.from_program (fst latest)).
Proof.
  unfold create, create_pairs, create_channel. intros H.
  bind_inv H. bind_inv Ha. bind_inv Ha. injection Ha as <-.
  bind_inv H. bind_inv Ha.
  injection Ha as <-.
  exists a0, a1, a2. repeat split; try assumption.
  rewrite (create_items_channel _ _ _ _ _ H). reflexivity.
Qed.

(** Two episodes, newest first: the channel is that of the newest. *)
Lemma create_channel_from_surviving_end_witness :
  exists fg : FeedGenerator.t,
    create Examples.tbs_world Examples.creator
      [(Examples.ep_a, Examples.oid1); (Examples.ep_d, Examples.oid3)]
      None None false true = Ok fg
    /\ exists (sort_by' : string) (sorted_pairs : list pair) (latest : pair),
         create_sort_by
           [(Examples.ep_a, Examples.oid1); (Examples.ep_d, Examples.oid3)] None
         = Ok sort_by'
         /\ create_sorted
              [(Examples.ep_a, Examples.oid1); (Examples.ep_d, Examples.oid3)]
              sort_by' false = Ok sorted_pairs
         /\ index_first (create_unique_pairs sorted_pairs) = Ok latest
         /\ without_entries fg
            = PodcastChannel.to_feed_generator
                (PodcastChannel.from_program (fst latest)).
Proof.
  eexists. split.
  - reflexivity.
  - apply (create_channel_from_surviving_end Examples.tbs_world Examples.creator
             [(Examples.ep_a, Examples.oid1); (Examples.ep_d, Examples.oid3)]
             None false true).
    reflexivity.
Defined.

(** C7, refuted as stated: oldest first, the sorted sequence ends with
    episode B, which repeats the datetime of episode A and is suppressed; the
    channel of the feed is that of A, not that of the last pair of the
    sorted sequence. *)
Lemma create_channel_not_from_sorted_end :
  create_sorted [(Examples.ep_a, Examples.oid1); (Examples.ep_b, Examples.oid2)]
    "datetime" true
  = Ok [(Examples.ep_a, Examples.oid1); (Examples.ep_b, Examples.oid2)]
  /\ index_last [(Examples.ep_a, Examples.oid1); (Examples.ep_b, Examples.oid2)]
     = Ok (Examples.ep_b, Examples.oid2)
  /\ exists fg : FeedGenerator.t,
       create Examples.tbs_world Examples.creator
         [(Examples.ep_a, Examples.oid1); (Examples.ep_b, Examples.oid2)]
         None None true true = Ok fg
       /\ FeedGenerator.title fg = "A"
       /\ FeedGenerator.title
            (PodcastChannel.to_feed_generator
               (PodcastChannel.from_program Examples.ep_b)) = "B"
       /\ without_entries fg
          = PodcastChannel.to_feed_generator
              (PodcastChannel.from_program Examples.ep_a)
       /\ without_entries fg
          <> PodcastChannel.to_feed_generator
               (PodcastChannel.from_program Examples.ep_b).
Proof.
  split; [reflexivity |]. split; [reflexivity |].
  eexists. split; [reflexivity |].
  repeat split; try reflexivity.
  vm_compute. discriminate.
Qed.

(* ===================================================================== *)
(** * Further properties of the module *)
(* ===================================================================== *)

(** ** The file system, continued *)

Lemma lookup_some (t : Fs.t) (p : Path.path) (f : Fs.file) :
  Fs.lookup t p = Some f -> Fs.f_path f = p /\ In f t.
Proof.
  unfold Fs.lookup. intros H. apply find_some in H. destruct H as [Hin Heq].
  apply path_eqb_eq in Heq. auto.
Qed.

Lemma exists_lookup (t : Fs.t) (p : Path.path) :
  Fs.exists_ t p = true <-> exists f, Fs.lookup t p = Some f.
Proof.
  unfold Fs.exists_, Fs.lookup. induction t as [| g t IH]; simpl.
  - split; [discriminate | intros [f H]; discriminate].
  - destruct (Path.eqb (Fs.f_path g) p); simpl.
    + split; [intros _; exists g; reflexivity | reflexivity].
    + exact IH.
Qed.

Lemma not_exists_lookup (t : Fs.t) (p : Path.path) :
  Fs.exists_ t p = false -> Fs.lookup t p = None.
Proof.
  intros H. destruct (Fs.lookup t p) as [f |] eqn:E; [| reflexivity].
  assert (Fs.exists_ t p = true) by (apply exists_lookup; exists f; exact E).
  congruence.
Qed.

(** What [glob] returns lies in the scanned directory and is named
    [media.] something. *)
Lemma glob_media_sound (t : Fs.t) (dir p : Path.path) :
  In p (Fs.glob_media t dir) ->
  p = (dir ++ [Path.name p])%list /\ Fs.matches_media (Path.name p) = true.
Proof.
  unfold Fs.glob_media. intros H.
  apply in_map_iff in H. destruct H as [f [<- Hin]].
  apply filter_In in Hin. destruct Hin as [_ Hf].
  apply andb_true_iff in Hf. destruct Hf as [Hparent Hname].
  apply path_eqb_eq in Hparent. split; [| exact Hname].
  destruct (Fs.f_path f) as [| c q] eqn:E.
  - simpl in Hname. discriminate.
  - rewrite <- Hparent. unfold Path.parent, Path.name.
    apply app_removelast_last. discriminate.
Qed.

(** ** The media inspector *)

(** X1: the media inspector returns a duration exactly for an existing file
    whose suffix and container agree: an MP3 container under [.mp3], an MP4
    container under [.m4a] or [.mp4]; the duration is the length recorded
    in the file. *)
Theorem media_path_to_duration_ok_iff (w : world) (path : Path.path) (n : number) :
  _media_path_to_duration w path = Ok n
  <-> exists f,
        Fs.lookup (fs w) path = Some f
        /\ n = NFloat (Fs.f_length f)
        /\ ((Path.suffix path = ".mp3" /\ Fs.f_container f = Fs.MP3)
            \/ ((Path.suffix path = ".m4a" \/ Path.suffix path = ".mp4")
                /\ Fs.f_container f = Fs.MP4)).
Proof.
  unfold _media_path_to_duration, Mutagen.info_length.
  destruct (Fs.exists_ (fs w) path) eqn:Hex; cbv [negb].
  - apply exists_lookup in Hex. destruct Hex as [f Hf]. rewrite Hf.
    destruct (String.eqb_spec ".mp3" (Path.suffix path)) as [E3 | N3].
    { split.
      - destruct (Fs.f_container f) eqn:Ec; simpl; intros H; try discriminate.
        injection H as <-. exists f. auto.
      - intros [g [Hg [-> [[_ Hc] | [[Hs | Hs] _]]]]];
          try (rewrite <- E3 in Hs; discriminate).
        injection Hg as <-. rewrite Hc. reflexivity. }
    destruct (String.eqb_spec ".m4a" (Path.suffix path)) as [E4 | N4].
    { split.
      - destruct (Fs.f_container f) eqn:Ec; simpl; intros H; try discriminate.
        injection H as <-. exists f. auto 6.
      - intros [g [Hg [-> [[Hs _] | [_ Hc]]]]];
          try (rewrite <- E4 in Hs; discriminate).
        injection Hg as <-. rewrite Hc. reflexivity. }
    destruct (String.eqb_spec ".mp4" (Path.suffix path)) as [E5 | N5].
    { split.
      - destruct (Fs.f_container f) eqn:Ec; simpl; intros H; try discriminate.
        injection H as <-. exists f. auto 6.
      - intros [g [Hg [-> [[Hs _] | [_ Hc]]]]];
          try (rewrite <- E5 in Hs; discriminate).
        injection Hg as <-. rewrite Hc. reflexivity. }
    split; [discriminate |].
    intros [g [_ [_ [[Hs _] | [[Hs | Hs] _]]]]]; congruence.
  - split; [discriminate |].
    intros [f [Hf _]]. rewrite (not_exists_lookup _ _ Hex) in Hf. discriminate.
Qed.

(** The duration of the first episode's mp3. *)
Lemma media_path_to_duration_ok_iff_witness :
  _media_path_to_duration Examples.tbs_world
    ["data"; "radiko"; "TBS"; "65a000000000000000000001"; "media.mp3"]
  = Ok (NFloat (1800 # 1)).
Proof.
  apply (proj2 (media_path_to_duration_ok_iff Examples.tbs_world
                  ["data"; "radiko"; "TBS"; "65a000000000000000000001"; "media.mp3"]
                  (NFloat (1800 # 1)))).
  exists (Examples.media "TBS" Examples.oid1 "media.mp3" Fs.MP3).
  split; [reflexivity |]. split; [reflexivity |].
  left. split; reflexivity.
Defined.

(** X2: a file the media inspector can read always has an enclosure type,
    and it is never the QuickTime one. *)
Theorem inspectable_has_enclosure_type
  (w : world) (path : Path.path) (n : number) (is_video : bool) :
  _media_path_to_duration w path = Ok n ->
  exists mime,
    _path_to_enclosure_type path is_video = Ok mime
    /\ mime <> "video/quicktime".
Proof.
  unfold _media_path_to_duration, _path_to_enclosure_type.
  destruct (Fs.exists_ (fs w) path); cbv [negb]; [| discriminate].
  destruct (".mp3" =? Path.suffix path)%string.
  { intros _. eexists. split; [reflexivity | discriminate]. }
  destruct (".m4a" =? Path.suffix path)%string.
  { intros _. eexists. split; [reflexivity | discriminate]. }
  destruct (".mp4" =? Path.suffix path)%string.
  { intros _. eexists. split; [reflexivity | destruct is_video; discriminate]. }
  discriminate.
Qed.

(** The first episode's mp3 is audio/mpeg. *)
Lemma inspectable_has_enclosure_type_witness :
  exists mime,
    _path_to_enclosure_type
      ["data"; "radiko"; "TBS"; "65a000000000000000000001"; "media.mp3"] false
    = Ok mime
    /\ mime <> "video/quicktime".
Proof.
  apply (inspectable_has_enclosure_type Examples.tbs_world
           ["data"; "radiko"; "TBS"; "65a000000000000000000001"; "media.mp3"]
           (NFloat (1800 # 1)) false).
  reflexivity.
Defined.

(** ** The enclosure *)

Lemma relpath_parts_under (root rest : Path.path) :
  Path.relpath_parts (root ++ rest)%list root = rest.
Proof.
  induction root as [| c root IH]; simpl.
  - destruct rest; reflexivity.
  - destruct (string_dec c c) as [_ | N]; [exact IH | congruence].
Qed.

Lemma path_to_enclosure_url_parts
  (w : world) (path_root rest : Path.path) (base_url : string) :
  rest <> [] ->
  _path_to_enclosure_url w (path_root ++ rest)%list path_root base_url
  = urljoin w base_url ("media/" ++ Urllib.quote (String.concat "/" rest)).
Proof.
  intros Hrest. unfold _path_to_enclosure_url, Path.relpath.
  rewrite relpath_parts_under.
  destruct rest; [congruence | reflexivity].
Qed.





(** ** The item mapper, continued *)


(** The first path of a scan lies in the scanned directory under a name
    that starts with [media.]. *)
Lemma from_program_unfold
  (w : world) (program : Program.t) (program_id : ObjectId)
  (media_root media_path : Path.path) (others : list Path.path) :
  Fs.glob_media (fs w) (media_dir_of media_root program program_id)
  = media_path :: others ->
  media_path
  = (media_dir_of media_root program program_id ++ [Path.name media_path])%list
  /\ Fs.matches_media (Path.name media_path) = true.
Proof.
  intros Hglob.
  apply (glob_media_sound (fs w)). rewrite Hglob. left. reflexivity.
Qed.

Lemma split_slash_no_slash (s : string) :
  no_slash s = true -> Path.split_slash s = [s].
Proof.
  induction s as [| c s IH]; simpl; [reflexivity |].
  intros H. apply andb_true_iff in H. destruct H as [Hc Hs].
  apply negb_true_iff in Hc. rewrite Hc, (IH Hs). reflexivity.
Qed.

Lemma components_plain (s : string) :
  plain_segment s -> Path.components s = [s] /\ prefix "/" s = false.
Proof.
  intros [Hne [Hdot [_ Hslash]]]. unfold Path.components.
  rewrite (split_slash_no_slash s Hslash). simpl.
  destruct (String.eqb_spec s ""); [contradiction |].
  destruct (String.eqb_spec s "."); [contradiction |].
  split; [reflexivity |].
  destruct s as [| c s]; [reflexivity |].
  simpl in Hslash. apply andb_true_iff in Hslash. destruct Hslash as [Hc _].
  apply negb_true_iff in Hc. cbn [prefix].
  destruct (ascii_dec "/" c) as [<- | _]; [discriminate | reflexivity].
Qed.

(** Joining ordinary components appends them. *)
Lemma joinpath_plain (parts : list string) :
  Forall plain_segment parts ->
  forall p : Path.path, Path.joinpath p parts = (p ++ parts)%list.
Proof.
  unfold Path.joinpath.
  induction 1 as [| part parts Hpart _ IH]; intros p; simpl.
  - rewrite app_nil_r. reflexivity.
  - destruct (components_plain part Hpart) as [-> ->].
    rewrite IH, <- app_assoc. reflexivity.
Qed.



(** X7: the item [from_program] returns maps the program one to one: title,
    publish date, link and artwork are the program's, set or not as they
    are there; the description is the program's unless that is absent or
    empty, in which case it is the information field. When platform id,
    station id and identifier are ordinary path components, the enclosure
    points at a file named [media.] something in the episode directory and
    its URL is [urljoin] of the base URL with
    [media/platform/station/identifier/name], quoted, wherever the media
    root is. *)
Theorem from_program_fields
  (w : world) (program : Program.t) (program_id : ObjectId)
  (base_url : string) (media_root : Path.path) (item : PodcastItem.t) :
  PodcastItem.from_program w program program_id base_url media_root = Ok item ->
  PodcastItem.title item = Program.episode_name program
  /\ PodcastItem.pub_date item = Program.datetime program
  /\ PodcastItem.link item = Program.url program
  /\ PodcastItem.itunes_image item = Program.image_url program
  /\ (forall s, Program.description program = Some s -> s <> "" ->
                PodcastItem.description item = Some s)
  /\ (Program.description program = None \/ Program.description program = Some "" ->
      PodcastItem.description item = Program.information program)
  /\ (plain_segment (Program.platform_id program) ->
      plain_segment (Program.station_id program) ->
      plain_segment (str_ObjectId program_id) ->
      exists (name : string) (f : Fs.file),
        prefix "media." name = true
        /\ Fs.lookup (fs w)
             (media_root ++ [Program.platform_id program; Program.station_id program;
                             str_ObjectId program_id; name])%list = Some f
        /\ Enclosure.length (PodcastItem.enclosure item) = Some (Fs.f_size f)
        /\ Enclosure.url (PodcastItem.enclosure item)
           = urljoin w base_url
               ("media/"
                ++ Urllib.quote
                     (String.concat "/"
                        [Program.platform_id program; Program.station_id program;
                         str_ObjectId program_id; name]))).
Proof.
  unfold PodcastItem.from_program.
  fold (media_dir_of media_root program program_id).
  destruct (Fs.glob_media (fs w) (media_dir_of media_root program program_id))
    as [| media_path others] eqn:Hglob; [discriminate |].
  destruct (from_program_unfold w program program_id media_root
              media_path others Hglob) as [Hpath Hname].
  cbn [index_first Py.bind]. intros H.
  bind_inv H. bind_inv H. bind_inv H. injection H as <-.
  cbn [PodcastItem.title PodcastItem.pub_date PodcastItem.link
       PodcastItem.itunes_image PodcastItem.description PodcastItem.enclosure].
  repeat split.
  - intros s Hs Hne. unfold or_str, str_truthy. rewrite Hs.
    destruct (String.eqb_spec s ""); [contradiction | reflexivity].
  - intros [Hs | Hs]; unfold or_str, str_truthy; rewrite Hs; reflexivity.
  - intros Hplatform Hstation Hid.
    assert (Hdir : media_dir_of media_root program program_id
                   = (media_root ++ [Program.platform_id program;
                                     Program.station_id program;
                                     str_ObjectId program_id])%list).
    { unfold media_dir_of. apply joinpath_plain.
      repeat (apply Forall_cons; [assumption |]). apply Forall_nil. }
    assert (Hfull : media_path
                    = (media_root ++ [Program.platform_id program;
                                      Program.station_id program;
                                      str_ObjectId program_id;
                                      Path.name media_path])%list).
    { rewrite Hpath at 1. rewrite Hdir, <- app_assoc. reflexivity. }
    unfold Enclosure.from_path in Ha0. bind_inv Ha0. bind_inv Ha0.
    injection Ha0 as <-.
    cbn [Enclosure.length Enclosure.url].
    unfold _path_to_enclosure_length in Ha2.
    destruct (Fs.exists_ (fs w) media_path) eqn:Hex; cbn [negb] in Ha2;
      [| discriminate].
    destruct (proj1 (exists_lookup _ _) Hex) as [f Hf].
    unfold Fs.getsize in Ha2. rewrite Hf in Ha2. injection Ha2 as <-.
    exists (Path.name media_path), f.
    split; [exact Hname |]. split; [rewrite <- Hfull; exact Hf |].
    split; [reflexivity |].
    rewrite Hfull at 1.
    apply (path_to_enclosure_url_parts w media_root
             [Program.platform_id program; Program.station_id program;
              str_ObjectId program_id; Path.name media_path] base_url).
    discriminate.
Qed.

(** The item of episode 42 under the first identifier. *)
Lemma from_program_fields_witness :
  exists item,
    PodcastItem.from_program Examples.tbs_world Examples.ep42 Examples.oid1
      "https://x.example/" ["data"] = Ok item
    /\ PodcastItem.title item = Some "Night Show episode"
    /\ exists (name : string) (f : Fs.file),
         prefix "media." name = true
         /\ Fs.lookup (fs Examples.tbs_world)
              ["data"; "radiko"; "TBS"; "65a000000000000000000001"; name] = Some f
         /\ Enclosure.length (PodcastItem.enclosure item) = Some (Fs.f_size f)
         /\ Enclosure.url (PodcastItem.enclosure item)
            = Examples.urljoin_dir "https://x.example/"
                ("media/"
                 ++ Urllib.quote
                      (String.concat "/"
                         ["radiko"; "TBS"; "65a000000000000000000001"; name])).
Proof.
  eexists. split; [reflexivity |].
  split.
  - apply (proj1 (from_program_fields Examples.tbs_world Examples.ep42 Examples.oid1
                    "https://x.example/" ["data"] _ eq_refl)).
  - apply (proj2 (proj2 (proj2 (proj2 (proj2 (proj2
             (from_program_fields Examples.tbs_world Examples.ep42 Examples.oid1
                "https://x.example/" ["data"] _ eq_refl)))))));
      repeat split; discriminate.
Defined.

(** ** Feed entries and the channel *)

Lemma link_or_default (link : option string) :
  (if str_truthy link then match link with Some l => l | None => RADIKO_LINK end
   else RADIKO_LINK) <> ""
  /\ (forall l, link = Some l -> l <> "" ->
        (if str_truthy link then match link with Some l => l | None => RADIKO_LINK end
         else RADIKO_LINK) = l)
  /\ (link = None \/ link = Some "" ->
        (if str_truthy link then match link with Some l => l | None => RADIKO_LINK end
         else RADIKO_LINK) = RADIKO_LINK).
Proof.
  destruct link as [l |]; simpl.
  - destruct (String.eqb_spec l "") as [-> | Hne]; simpl.
    + repeat split; try discriminate. intros l' H. injection H as <-. congruence.
    + repeat split; try assumption.
      * intros l' H. injection H as <-. reflexivity.
      * intros [H | H]; [discriminate | injection H as ->; congruence].
  - repeat split; try discriminate.
Qed.

(** X8: [set_feed_entry] raises only for a negative duration, which the
    duration setter refuses with [ValueError]; for every other item it
    returns an entry that carries the item's guid as a non-permalink, its
    duration, a link that is never empty (the item's link, or the radiko
    address when the item has none or an empty one), the explicit flag as
    "yes" or "no", and a publish date exactly when the item has one: the
    item's wall clock followed by the fixed offset. *)
Theorem set_feed_entry_outcome (self : PodcastItem.t) :
  (forall n, PodcastItem.itunes_duration self = Some n -> n < 0 ->
     PodcastItem.set_feed_entry self = Raise (ValueError "Invalid duration format"))
  /\ (PodcastItem.itunes_duration self = None
      \/ (exists n, PodcastItem.itunes_duration self = Some n /\ 0 <= n) ->
      exists entry,
        PodcastItem.set_feed_entry self = Ok entry
        /\ FeedEntry.guid entry = PodcastItem.guid self
        /\ FeedEntry.guid_permalink entry = false
        /\ FeedEntry.itunes_duration entry = PodcastItem.itunes_duration self
        /\ FeedEntry.link_href entry <> ""
        /\ (forall l, PodcastItem.link self = Some l -> l <> "" ->
              FeedEntry.link_href entry = l)
        /\ (PodcastItem.link self = None \/ PodcastItem.link self = Some "" ->
            FeedEntry.link_href entry = RADIKO_LINK)
        /\ (PodcastItem.pub_date self = None -> FeedEntry.pubDate entry = None)
        /\ (forall d, PodcastItem.pub_date self = Some d ->
              FeedEntry.pubDate entry
              = Some (Datetime.strftime_wall_clock d ++ " +0919"))
        /\ FeedEntry.itunes_explicit entry
           = (if PodcastItem.itunes_explicit self then "yes" else "no")).
Proof.
  unfold PodcastItem.set_feed_entry, FeedEntry.set_itunes_duration.
  destruct (link_or_default (PodcastItem.link self)) as [H1 [H2 H3]].
  split.
  - intros n -> Hn. apply Z.ltb_lt in Hn. rewrite Hn.
    destruct (PodcastItem.pub_date self); reflexivity.
  - intros Hd.
    assert (Hset : match PodcastItem.itunes_duration self with
                   | Some n => (n <? 0) = false
                   | None => True
                   end).
    { destruct Hd as [-> | [n [-> Hn]]]; [exact I | apply Z.ltb_ge; exact Hn]. }
    destruct (PodcastItem.itunes_duration self) as [n |]; [rewrite Hset |];
      destruct (PodcastItem.pub_date self) as [d |]; simpl;
      eexists; (split; [reflexivity |]); simpl; repeat split; auto;
      try discriminate;
      intros d' H; injection H as <-; reflexivity.
Qed.

(** The entry of an item with a link and a publish date. *)
Lemma set_feed_entry_outcome_witness :
  exists entry,
    PodcastItem.set_feed_entry Examples.item42 = Ok entry
    /\ FeedEntry.link_href entry = "https://radio.example/night"
    /\ FeedEntry.pubDate entry = Some "Mon, 01 Jan 2024 01:00:00 +0919".
Proof.
  destruct (proj2 (set_feed_entry_outcome Examples.item42))
    as [entry [He [_ [_ [_ [_ [Hlink [_ [_ [Hdate _]]]]]]]]]].
  - right. exists 1800. split; [reflexivity | lia].
  - exists entry. split; [exact He |]. split.
    + apply Hlink; [reflexivity | discriminate].
    + apply (Hdate (Examples.naive_at 2024 1 1 1 0 0)). reflexivity.
Defined.

(** X9: the channel tags of a feed never hold an empty link: it is the
    channel's link, or the radiko address when the channel has none or an
    empty one. A channel derived from a program is in Japanese, not
    explicit, episodic, authored by the program's station, and titled with
    the program's name. *)
Theorem channel_feed_tags (program : Program.t) (channel : PodcastChannel.t) :
  FeedGenerator.link_href (PodcastChannel.to_feed_generator channel) <> ""
  /\ (forall l, PodcastChannel.link channel = Some l -> l <> "" ->
        FeedGenerator.link_href (PodcastChannel.to_feed_generator channel) = l)
  /\ (PodcastChannel.link channel = None \/ PodcastChannel.link channel = Some "" ->
      FeedGenerator.link_href (PodcastChannel.to_feed_generator channel)
      = RADIKO_LINK)
  /\ FeedGenerator.entries (PodcastChannel.to_feed_generator channel) = []
  /\ (let fg := PodcastChannel.to_feed_generator
                  (PodcastChannel.from_program program) in
      FeedGenerator.title fg = Program.name program
      /\ FeedGenerator.language fg = "ja"
      /\ FeedGenerator.itunes_explicit fg = "no"
      /\ FeedGenerator.itunes_type fg = "episodic"
      /\ FeedGenerator.itunes_author fg = Some (Program.station_id program)
      /\ FeedGenerator.copyright fg = Program.copyright program).
Proof.
  destruct (link_or_default (PodcastChannel.link channel)) as [H1 [H2 H3]].
  simpl. repeat split; auto.
Qed.

(** ** The sort key, continued *)

(** X10: the sort only ever runs on one of the two attribute names: whatever
    [create_sort_by] returns is "datetime" or "episode_id"; a [sort_by]
    given as one of them is used as it is, whatever the stations of the
    pairs and also on an empty input. *)
Theorem create_sort_by_range (program_and_id_pairs : list pair)
  (sort_by : option string) :
  (forall r, create_sort_by program_and_id_pairs sort_by = Ok r ->
             r = "datetime" \/ r = "episode_id")
  /\ (forall s, In s available_sort_by ->
                create_sort_by program_and_id_pairs (Some s) = Ok s).
Proof.
  split.
  - intros r. unfold create_sort_by.
    destruct sort_by as [s |].
    + destruct (in_list s available_sort_by) eqn:E; simpl; [| discriminate].
      intros H. injection H as <-.
      apply in_list_In in E. simpl in E.
      destruct E as [<- | [<- | []]]; auto.
    + destruct (Nat.ltb 1 (count_station_ids program_and_id_pairs)).
      * intros H. injection H as <-. auto.
      * destruct program_and_id_pairs as [| first rest];
          cbn [index_first Py.bind]; [discriminate |].
        destruct (in_list (Program.station_id (fst first))
                    ["onsen.ag"; "hibiki-radio.jp"]);
          intros H; injection H as <-; auto.
  - intros s Hs. unfold create_sort_by.
    apply in_list_In in Hs. rewrite Hs. reflexivity.
Qed.

(** An explicit "episode_id" on pairs of two stations. *)
Lemma create_sort_by_range_witness :
  create_sort_by
    [(Examples.ep_a, Examples.oid1);
     (Examples.program "onsen.ag" "Other" None None None, Examples.oid2)]
    (Some "episode_id")
  = Ok "episode_id".
Proof.
  apply (proj2 (create_sort_by_range
                  [(Examples.ep_a, Examples.oid1);
                   (Examples.program "onsen.ag" "Other" None None None,
                    Examples.oid2)] (Some "episode_id"))).
  right. left. reflexivity.
Defined.

(** ** Empty and short inputs *)

(** X11: on an empty input [create] raises [IndexError] unless both a
    [sort_by] and a channel are passed: with [sort_by] unset the error comes
    from the station lookup, with a valid [sort_by] and no channel from the
    channel lookup; with both it returns the channel's feed without
    entries. *)
Theorem create_empty_input
  (w : world) (self : PodcastRssFeedGenCreator.t)
  (channel : option PodcastChannel.t) (from_oldest remove_duplicates : bool) :
  create w self [] channel None from_oldest remove_duplicates = Raise IndexError
  /\ (forall s, In s available_sort_by ->
        create w self [] None (Some s) from_oldest remove_duplicates
        = Raise IndexError)
  /\ (forall s c, In s available_sort_by ->
        create w self [] (Some c) (Some s) from_oldest remove_duplicates
        = Ok (PodcastChannel.to_feed_generator c)).
Proof.
  split; [reflexivity |].
  split.
  - intros s [<- | [<- | []]]; destruct from_oldest, remove_duplicates; reflexivity.
  - intros s c [<- | [<- | []]]; destruct from_oldest, remove_duplicates; reflexivity.
Qed.

(** The empty feed of a given channel. *)
Lemma create_empty_input_witness :
  create Examples.tbs_world Examples.creator [] (Some Examples.some_channel)
    (Some "datetime") false true
  = Ok (PodcastChannel.to_feed_generator Examples.some_channel).
Proof.
  apply (proj2 (proj2 (create_empty_input Examples.tbs_world Examples.creator
                         None false true))).
  left. reflexivity.
Defined.

(** X12: a sequence of at most one pair is sorted without any comparison:
    the sort returns it unchanged, also when its key is [None]. *)
Theorem create_sorted_short (program_and_id_pairs : list pair)
  (sort_by : string) (from_oldest : bool) :
  (List.length program_and_id_pairs <= 1)%nat ->
  create_sorted program_and_id_pairs sort_by from_oldest = Ok program_and_id_pairs.
Proof.
  intros H. destruct program_and_id_pairs as [| x [| y rest]].
  - destruct from_oldest; reflexivity.
  - destruct from_oldest; reflexivity.
  - simpl in H. lia.
Qed.

(** One episode without a datetime, sorted by datetime. *)
Lemma create_sorted_short_witness :
  create_sorted [(Examples.ep_no_datetime, Examples.oid1)] "datetime" false
  = Ok [(Examples.ep_no_datetime, Examples.oid1)].
Proof.
  apply create_sorted_short. simpl. lia.
Defined.

(** ** Keys that cannot be ordered *)

Lemma value_ltb_raise (a b : Value.value) (e : exn) :
  Value.ltb a b = Raise e -> e = TypeError.
Proof.
  destruct a as [| x | x | d], b as [| y | y | d']; simpl;
    try discriminate; try (intros H; injection H as <-; reflexivity).
  unfold Datetime.ltb.
  destruct (Datetime.instant d), (Datetime.instant d');
    try discriminate; intros H; injection H as <-; reflexivity.
Qed.

Lemma value_ltb_none_l (b : Value.value) : Value.ltb Value.VNone b = Raise TypeError.
Proof. reflexivity. Qed.

Lemma value_ltb_none_r (a : Value.value) : Value.ltb a Value.VNone = Raise TypeError.
Proof. destruct a; reflexivity. Qed.

Section UnorderableKeys.

Context {A : Type}.

Lemma insert_raise (kx : Value.value * A) (run : list (Value.value * A)) (e : exn) :
  Builtins.insert kx run = Raise e -> e = TypeError.
Proof.
  induction run as [| ky run IH]; simpl; [discriminate |].
  destruct (Value.ltb (fst ky) (fst kx)) as [b | e'] eqn:E; simpl.
  - destruct b; [| discriminate].
    destruct (Builtins.insert kx run) as [r | e'']; simpl; [discriminate |].
    intros H. injection H as <-. apply IH. reflexivity.
  - intros H. injection H as <-. apply (value_ltb_raise _ _ _ E).
Qed.

Lemma stable_sort_raise (l : list (Value.value * A)) (e : exn) :
  Builtins.stable_sort l = Raise e -> e = TypeError.
Proof.
  induction l as [| kx l IH]; simpl; [discriminate |].
  destruct (Builtins.stable_sort l) as [s | e']; simpl.
  - apply insert_raise.
  - intros H. injection H as <-. apply IH. reflexivity.
Qed.

Lemma stable_sort_permutation (l s : list (Value.value * A)) :
  Builtins.stable_sort l = Ok s -> Permutation l s.
Proof.
  revert s. induction l as [| kx l IH]; simpl; intros s H.
  - injection H as <-. constructor.
  - bind_inv H.
    apply perm_trans with (kx :: a); [apply perm_skip; apply IH; exact Ha |].
    apply insert_permutation. exact H.
Qed.

(** A [None] key among two or more makes the sort raise. *)
Lemma stable_sort_none_key (l : list (Value.value * A)) :
  (2 <= List.length l)%nat ->
  (exists kx, In kx l /\ fst kx = Value.VNone) ->
  Builtins.stable_sort l = Raise TypeError.
Proof.
  intros Hlen Hnone.
  destruct (Builtins.stable_sort l) as [s | e] eqn:E;
    [| f_equal; apply (stable_sort_raise l e E)].
  exfalso. revert s Hlen Hnone E.
  induction l as [| kx l IH]; intros s Hlen [kz [Hin Hkz]] E; simpl in *; [lia |].
  bind_inv E.
  pose proof (stable_sort_permutation l a Ha) as Hperm.
  destruct a as [| ky run].
  { apply Permutation_sym, Permutation_nil in Hperm. subst l. simpl in Hlen. lia. }
  simpl in E.
  destruct Hin as [<- | Hin].
  - rewrite Hkz, value_ltb_none_r in E. discriminate.
  - destruct l as [| k1 [| k2 l']].
    + contradiction.
    + destruct Hin as [<- | []]. simpl in Ha. injection Ha as <- <-.
      rewrite Hkz, value_ltb_none_l in E. discriminate.
    + apply (IH (ky :: run)); [simpl; lia | exists kz; auto | exact Ha].
Qed.

Lemma sorted_none_key (key : A -> Value.value) (reverse : bool) (l : list A) :
  (2 <= List.length l)%nat ->
  (exists x, In x l /\ key x = Value.VNone) ->
  Builtins.sorted key reverse l = Raise TypeError.
Proof.
  intros Hlen [x [Hin Hx]]. unfold Builtins.sorted.
  assert (Hd : In (key x, x) (map (fun x => (key x, x)) l)).
  { apply in_map_iff. exists x. auto. }
  rewrite stable_sort_none_key; [reflexivity | |].
  - destruct reverse; rewrite ?length_rev, length_map; exact Hlen.
  - exists (key x, x). split; [| exact Hx].
    destruct reverse; [apply -> in_rev |]; exact Hd.
Qed.

Lemma sorted_permutation (key : A -> Value.value) (reverse : bool) (l s : list A) :
  Builtins.sorted key reverse l = Ok s -> Permutation l s.
Proof.
  unfold Builtins.sorted. intros H. bind_inv H. injection H as <-.
  apply stable_sort_permutation in Ha.
  rewrite <- (map_snd_decorate key l) at 1. apply Permutation_map.
  unfold decorate.
  destruct reverse.
  - apply perm_trans with (rev (map (fun x => (key x, x)) l));
      [apply Permutation_rev |].
    apply perm_trans with a; [exact Ha | apply Permutation_rev].
  - exact Ha.
Qed.

End UnorderableKeys.

(** X13: sorting two or more pairs of which one has [None] as its key (no
    datetime when sorting by datetime, no episode id when sorting by episode
    id) raises [TypeError], in either direction, and so does [create] when
    that sort key is asked for. *)
Theorem create_sorted_none_key (program_and_id_pairs : list pair)
  (sort_by : string) (from_oldest : bool) :
  (2 <= List.length program_and_id_pairs)%nat ->
  (exists x, In x program_and_id_pairs /\ sort_key sort_by x = Value.VNone) ->
  create_sorted program_and_id_pairs sort_by from_oldest = Raise TypeError
  /\ (In sort_by available_sort_by ->
      forall (w : world) (self : PodcastRssFeedGenCreator.t)
             (channel : option PodcastChannel.t) (remove_duplicates : bool),
        create w self program_and_id_pairs channel (Some sort_by)
          from_oldest remove_duplicates = Raise TypeError).
Proof.
  intros Hlen Hnone.
  assert (H : create_sorted program_and_id_pairs sort_by from_oldest
              = Raise TypeError).
  { apply (sorted_none_key (sort_key sort_by)); assumption. }
  split; [exact H |].
  intros Hs w self channel remove_duplicates.
  unfold create, create_pairs, create_sort_by.
  apply in_list_In in Hs. rewrite Hs. simpl. rewrite H. reflexivity.
Qed.

(** Two episodes sorted by episode id, of which one has none. *)
Lemma create_sorted_none_key_witness :
  create_sorted
    [(Examples.ep7, Examples.oid1); (Examples.ep_no_episode_id, Examples.oid2)]
    "episode_id" false
  = Raise TypeError.
Proof.
  apply (create_sorted_none_key
           [(Examples.ep7, Examples.oid1); (Examples.ep_no_episode_id, Examples.oid2)]
           "episode_id" false).
  - simpl. lia.
  - exists (Examples.ep_no_episode_id, Examples.oid2). split.
    + right. left. reflexivity.
    + reflexivity.
Defined.

(** ** Duplicate suppression, continued *)

Lemma unique_from_subsequence (l : list pair) :
  forall pd pe : Value.value, subsequence (unique_from pd pe l) l.
Proof.
  induction l as [| x rest IH]; intros pd pe; simpl.
  - constructor.
  - destruct (differs pd pe x).
    + apply subsequence_keep. apply IH.
    + apply subsequence_drop. apply IH.
Qed.

Lemma subsequence_length {A : Type} (l1 l2 : list A) :
  subsequence l1 l2 -> (List.length l1 <= List.length l2)%nat.
Proof.
  induction 1; simpl; lia.
Qed.

Lemma subsequence_incl {A : Type} (l1 l2 : list A) :
  subsequence l1 l2 -> forall x, In x l1 -> In x l2.
Proof.
  induction 1 as [| y l1 l2 _ IH | y l1 l2 _ IH]; intros x Hx.
  - exact Hx.
  - destruct Hx as [<- | Hx]; [left; reflexivity | right; apply IH; exact Hx].
  - right. apply IH. exact Hx.
Qed.

(** X14: the duplicate-suppression pass only leaves pairs out: its output
    is the input with some pairs removed and the others in their order, so
    it is no longer than the input and holds no pair the input does not. *)
Theorem create_unique_pairs_subsequence (program_and_id_pairs : list pair) :
  subsequence (create_unique_pairs program_and_id_pairs) program_and_id_pairs
  /\ (List.length (create_unique_pairs program_and_id_pairs)
      <= List.length program_and_id_pairs)%nat
  /\ forall x, In x (create_unique_pairs program_and_id_pairs) ->
               In x program_and_id_pairs.
Proof.
  rewrite create_unique_pairs_unfold.
  pose proof (unique_from_subsequence program_and_id_pairs Value.VNone Value.VNone)
    as H.
  split; [exact H |]. split.
  - apply subsequence_length. exact H.
  - apply subsequence_incl. exact H.
Qed.

Lemma unique_from_no_episode_id (l : list pair) :
  (forall x, In x l -> Program.episode_id (fst x) = None) ->
  forall pd, unique_from pd Value.VNone l = [].
Proof.
  induction l as [| x rest IH]; intros Hall pd; simpl; [reflexivity |].
  assert (Hx : episode_id_of x = Value.VNone).
  { unfold episode_id_of, Program.episode_id_value.
    rewrite (Hall x (or_introl eq_refl)). reflexivity. }
  unfold differs. rewrite Hx. simpl. rewrite andb_false_r.
  apply IH. intros y Hy. apply Hall. right. exact Hy.
Qed.

Lemma unique_from_no_datetime (l : list pair) :
  (forall x, In x l -> Program.datetime (fst x) = None) ->
  forall pe, unique_from Value.VNone pe l = [].
Proof.
  induction l as [| x rest IH]; intros Hall pe; simpl; [reflexivity |].
  assert (Hx : datetime_of x = Value.VNone).
  { unfold datetime_of, Program.datetime_value.
    rewrite (Hall x (or_introl eq_refl)). reflexivity. }
  unfold differs. rewrite Hx. simpl.
  apply IH. intros y Hy. apply Hall. right. exact Hy.
Qed.

(** X15: when no program of the sequence has an episode id, or none has a
    datetime, the pass removes every pair: each one repeats the [None] of
    the pair before it, and the first repeats the initial [None]. *)
Theorem create_unique_pairs_all_none (program_and_id_pairs : list pair) :
  (forall x, In x program_and_id_pairs -> Program.episode_id (fst x) = None)
  \/ (forall x, In x program_and_id_pairs -> Program.datetime (fst x) = None) ->
  create_unique_pairs program_and_id_pairs = [].
Proof.
  rewrite create_unique_pairs_unfold. intros [H | H].
  - apply unique_from_no_episode_id. exact H.
  - apply unique_from_no_datetime. exact H.
Qed.

(** Two dated episodes of different days without episode ids. *)
Lemma create_unique_pairs_all_none_witness :
  create_unique_pairs
    [(Examples.ep_no_episode_id, Examples.oid1);
     (Examples.program "TBS" "Night Show" None
        (Some (Examples.naive_at 2024 1 1 1 0 0)) None, Examples.oid2)]
  = [].
Proof.
  apply create_unique_pairs_all_none.
  left. intros x [<- | [<- | []]]; reflexivity.
Defined.

Lemma unique_from_length (l : list pair) (pd pe : Value.value) :
  (List.length (unique_from pd pe l) <= List.length l)%nat.
Proof.
  apply subsequence_length. apply unique_from_subsequence.
Qed.

Lemma unique_from_fixed_iff (l : list pair) :
  forall pd pe : Value.value,
    unique_from pd pe l = l <-> all_differ_from pd pe l.
Proof.
  induction l as [| x rest IH]; intros pd pe; simpl.
  - split; auto.
  - destruct (differs pd pe x) eqn:E.
    + split.
      * intros H. injection H as H. split; [reflexivity |]. apply IH. exact H.
      * intros [_ H]. f_equal. apply IH. exact H.
    + split.
      * intros H.
        pose proof (unique_from_length rest (datetime_of x) (episode_id_of x)) as Hl.
        rewrite H in Hl. simpl in Hl. lia.
      * intros [H _]. discriminate.
Qed.

(** C3 (as the code has it): applying the pass to its own output removes no
    further item exactly when, in that output, every item differs from the
    item immediately before it in datetime and in episode id and the first
    item has both. *)
Theorem create_unique_pairs_idempotent_iff (l : list pair) :
  create_unique_pairs (create_unique_pairs l) = create_unique_pairs l
  <-> all_differ_from Value.VNone Value.VNone (create_unique_pairs l).
Proof.
  rewrite (create_unique_pairs_unfold (create_unique_pairs l)).
  apply unique_from_fixed_iff.
Qed.

(** Two episodes of which the second repeats only the datetime of the
    first: the pass drops the second, and a second pass drops nothing. *)
Lemma create_unique_pairs_idempotent_iff_witness :
  create_unique_pairs
    (create_unique_pairs
       [(Examples.ep_a, Examples.oid1); (Examples.ep_b, Examples.oid2)])
  = create_unique_pairs
      [(Examples.ep_a, Examples.oid1); (Examples.ep_b, Examples.oid2)].
Proof.
  apply (proj2 (create_unique_pairs_idempotent_iff
                  [(Examples.ep_a, Examples.oid1); (Examples.ep_b, Examples.oid2)])).
  simpl. repeat split; reflexivity.
Defined.

(** X16: the pass leaves a sequence unchanged exactly when every pair
    differs from the pair before it in datetime and in episode id, and the
    first pair has both. *)
Theorem create_unique_pairs_fixed_iff (program_and_id_pairs : list pair) :
  create_unique_pairs program_and_id_pairs = program_and_id_pairs
  <-> all_differ_from Value.VNone Value.VNone program_and_id_pairs.
Proof.
  rewrite create_unique_pairs_unfold. apply unique_from_fixed_iff.
Qed.

(** Two episodes that differ in datetime and in episode id. *)
Lemma create_unique_pairs_fixed_iff_witness :
  create_unique_pairs
    [(Examples.ep_a, Examples.oid1); (Examples.ep_d, Examples.oid3)]
  = [(Examples.ep_a, Examples.oid1); (Examples.ep_d, Examples.oid3)].
Proof.
  apply (proj2 (create_unique_pairs_fixed_iff
                  [(Examples.ep_a, Examples.oid1); (Examples.ep_d, Examples.oid3)])).
  simpl. repeat split; reflexivity.
Defined.

(** ** The assembled feed *)

Lemma from_program_guid_of (w : world) (self : PodcastRssFeedGenCreator.t)
  (x : pair) (item : PodcastItem.t) :
  PodcastItem.from_program w (fst x) (snd x) (base_url self) (media_root self)
  = Ok item ->
  PodcastItem.guid item = guid_of x.
Proof.
  unfold PodcastItem.from_program. intros H.
  bind_inv H. bind_inv H. bind_inv H. bind_inv H. injection H as <-. reflexivity.
Qed.

Lemma set_feed_entry_guid (item : PodcastItem.t) (entry : FeedEntry.t) :
  PodcastItem.set_feed_entry item = Ok entry ->
  FeedEntry.guid entry = PodcastItem.guid item.
Proof.
  unfold PodcastItem.set_feed_entry. intros H.
  bind_inv H. bind_inv H. injection H as <-. reflexivity.
Qed.

Lemma create_items_guids (w : world) (self : PodcastRssFeedGenCreator.t)
  (l : list pair) :
  forall fg fg' : FeedGenerator.t,
    create_items w self fg l = Ok fg' ->
    map FeedEntry.guid (FeedGenerator.entries fg')
    = (map FeedEntry.guid (FeedGenerator.entries fg) ++ map guid_of l)%list.
Proof.
  induction l as [| [program program_id] rest IH]; intros fg fg' H; simpl in H.
  - injection H as <-. simpl. rewrite app_nil_r. reflexivity.
  - bind_inv H. bind_inv H.
    pose proof (from_program_guid_of w self (program, program_id) a Ha) as Hguid.
    pose proof (set_feed_entry_guid a a0 Ha0) as Hentry.
    rewrite (IH _ _ H). simpl.
    rewrite map_app, <- app_assoc. simpl.
    rewrite Hentry, Hguid. reflexivity.
Qed.

Lemma create_inv
  (w : world) (self : PodcastRssFeedGenCreator.t) (l : list pair)
  (channel : option PodcastChannel.t) (sort_by : option string)
  (from_oldest remove_duplicates : bool) (fg : FeedGenerator.t) :
  create w self l channel sort_by from_oldest remove_duplicates = Ok fg ->
  exists final c,
    create_pairs l sort_by from_oldest remove_duplicates = Ok final
    /\ create_channel final channel from_oldest = Ok c
    /\ create_items w self (PodcastChannel.to_feed_generator c) final = Ok fg.
Proof.
  unfold create. intros H. bind_inv H. bind_inv H.
  exists a, a0. auto.
Qed.

(** X17: the entries of the feed [create] returns stand in the order of the
    sequence that survives sorting and duplicate suppression, one entry per
    surviving pair: the guids of the entries, read in document order, are
    the episode ids of those pairs in that order. *)
Theorem create_entries_in_order
  (w : world) (self : PodcastRssFeedGenCreator.t) (program_and_id_pairs : list pair)
  (channel : option PodcastChannel.t) (sort_by : option string)
  (from_oldest remove_duplicates : bool) (fg : FeedGenerator.t) :
  create w self program_and_id_pairs channel sort_by from_oldest remove_duplicates
  = Ok fg ->
  exists final,
    create_pairs program_and_id_pairs sort_by from_oldest remove_duplicates
    = Ok final
    /\ map FeedEntry.guid (FeedGenerator.entries fg) = map guid_of final
    /\ List.length (FeedGenerator.entries fg) = List.length final.
Proof.
  intros H. apply create_inv in H. destruct H as [final [c [Hp [_ Hi]]]].
  exists final. split; [exact Hp |].
  apply create_items_guids in Hi. simpl in Hi.
  split; [exact Hi |].
  rewrite <- (length_map FeedEntry.guid), Hi, length_map. reflexivity.
Qed.

(** Two episodes, newest first. *)
Lemma create_entries_in_order_witness :
  exists fg final,
    create Examples.tbs_world Examples.creator
      [(Examples.ep_a, Examples.oid1); (Examples.ep_d, Examples.oid3)]
      None None false true = Ok fg
    /\ create_pairs
         [(Examples.ep_a, Examples.oid1); (Examples.ep_d, Examples.oid3)]
         None false true = Ok final
    /\ map FeedEntry.guid (FeedGenerator.entries fg) = map guid_of final
    /\ List.length (FeedGenerator.entries fg) = List.length final.
Proof.
  eexists.
  destruct (create_entries_in_order Examples.tbs_world Examples.creator
              [(Examples.ep_a, Examples.oid1); (Examples.ep_d, Examples.oid3)]
              None None false true _ eq_refl) as [final H].
  exists final. split; [reflexivity | exact H].
Defined.

Lemma index_nonempty {A : Type} (l1 l2 : list A) (x : A) (from_oldest : bool) :
  exists y,
    (if from_oldest then index_last (l1 ++ x :: l2)%list
     else index_first (l1 ++ x :: l2)%list) = Ok y.
Proof.
  destruct from_oldest.
  - unfold index_last. rewrite rev_app_distr. simpl.
    destruct (rev l2) as [| z r]; simpl; eexists; reflexivity.
  - destruct l1; simpl; eexists; reflexivity.
Qed.

Lemma create_items_first_failure
  (w : world) (self : PodcastRssFeedGenCreator.t) (l1 l2 : list pair) (x : pair)
  (e : exn) :
  Forall (maps_well w self) l1 ->
  fails_with w self x e ->
  forall fg, create_items w self fg (l1 ++ x :: l2)%list = Raise e.
Proof.
  intros Hl1 Hx. induction Hl1 as [| [program program_id] l1 Hy _ IH]; intros fg.
  - destruct x as [program program_id]. unfold fails_with in Hx. simpl in *.
    destruct Hx as [Hx | [item [Hitem Hx]]].
    + rewrite Hx. reflexivity.
    + rewrite Hitem. cbn [Py.bind]. rewrite Hx. reflexivity.
  - destruct Hy as [item [entry [Hitem Hentry]]]. simpl in *.
    rewrite Hitem. cbn [Py.bind]. rewrite Hentry. cbn [Py.bind].
    apply IH.
Qed.

(** X18: [create] fails fast: when the pairs before some surviving pair all
    map to items and entries and that pair fails, in the item mapper or in
    the setters of its entry, [create] raises the exception of that pair
    and returns no feed, whatever comes after it and whether or not a
    channel was passed. *)
Theorem create_first_failure
  (w : world) (self : PodcastRssFeedGenCreator.t) (program_and_id_pairs : list pair)
  (channel : option PodcastChannel.t) (sort_by : option string)
  (from_oldest remove_duplicates : bool)
  (before after : list pair) (x : pair) (e : exn) :
  create_pairs program_and_id_pairs sort_by from_oldest remove_duplicates
  = Ok (before ++ x :: after)%list ->
  Forall (maps_well w self) before ->
  fails_with w self x e ->
  create w self program_and_id_pairs channel sort_by from_oldest remove_duplicates
  = Raise e.
Proof.
  intros Hp Hbefore Hx. unfold create. rewrite Hp. cbn [Py.bind].
  assert (Hc : exists c, create_channel (before ++ x :: after)%list channel
                           from_oldest = Ok c).
  { unfold create_channel. destruct channel as [c |]; [exists c; reflexivity |].
    destruct (index_nonempty before after x from_oldest) as [y ->].
    eexists. reflexivity. }
  destruct Hc as [c ->]. cbn [Py.bind].
  apply create_items_first_failure; assumption.
Qed.

(** The second of two episodes has no media file. *)
Lemma create_first_failure_witness :
  create Examples.empty_world Examples.creator
    [(Examples.ep42, Examples.oid2); (Examples.ep42, Examples.oid1)]
    None None false false
  = Raise IndexError.
Proof.
  apply (create_first_failure Examples.empty_world Examples.creator
           [(Examples.ep42, Examples.oid2); (Examples.ep42, Examples.oid1)]
           None None false false
           [(Examples.ep42, Examples.oid2)] [] (Examples.ep42, Examples.oid1)).
  - reflexivity.
  - constructor; [| constructor]. eexists. eexists. split; reflexivity.
  - left. reflexivity.
Defined.

(** X19: a channel passed to [create] is used as it is: the channel tags of
    the feed are those of the passed channel, whatever the pairs are. *)
Theorem create_channel_override
  (w : world) (self : PodcastRssFeedGenCreator.t) (program_and_id_pairs : list pair)
  (channel : PodcastChannel.t) (sort_by : option string)
  (from_oldest remove_duplicates : bool) (fg : FeedGenerator.t) :
  create w self program_and_id_pairs (Some channel) sort_by from_oldest
    remove_duplicates = Ok fg ->
  without_entries fg = PodcastChannel.to_feed_generator channel.
Proof.
  intros H. apply create_inv in H. destruct H as [final [c [_ [Hc Hi]]]].
  simpl in Hc. injection Hc as <-.
  rewrite (create_items_channel _ _ _ _ _ Hi). reflexivity.
Qed.

(** A feed of episode A under the channel of another show. *)
Lemma create_channel_override_witness :
  exists fg,
    create Examples.tbs_world Examples.creator [(Examples.ep_a, Examples.oid1)]
      (Some Examples.some_channel) None false true = Ok fg
    /\ without_entries fg = PodcastChannel.to_feed_generator Examples.some_channel.
Proof.
  eexists. split; [reflexivity |].
  apply (create_channel_override Examples.tbs_world Examples.creator
           [(Examples.ep_a, Examples.oid1)] Examples.some_channel None false true).
  reflexivity.
Defined.

Lemma create_pairs_inv (l : list pair) (sort_by : option string)
  (from_oldest remove_duplicates : bool) (final : list pair) :
  create_pairs l sort_by from_oldest remove_duplicates = Ok final ->
  exists sorted_pairs,
    Permutation l sorted_pairs
    /\ final = (if remove_duplicates then create_unique_pairs sorted_pairs
                else sorted_pairs).
Proof.
  unfold create_pairs, create_sorted. intros H.
  bind_inv H. bind_inv H. injection H as <-.
  exists a0. split; [| reflexivity].
  apply (sorted_permutation _ _ _ _ Ha0).
Qed.

(** X20: a feed never has more entries than there were pairs, and every
    guid in it is the episode id of some input pair; without duplicate
    suppression the feed has exactly one entry per input pair: the guids of
    its entries are a rearrangement of the episode ids of the input. *)
Theorem create_entries_from_input
  (w : world) (self : PodcastRssFeedGenCreator.t) (program_and_id_pairs : list pair)
  (channel : option PodcastChannel.t) (sort_by : option string)
  (from_oldest remove_duplicates : bool) (fg : FeedGenerator.t) :
  create w self program_and_id_pairs channel sort_by from_oldest remove_duplicates
  = Ok fg ->
  (List.length (FeedGenerator.entries fg) <= List.length program_and_id_pairs)%nat
  /\ (forall g, In g (map FeedEntry.guid (FeedGenerator.entries fg)) ->
                In g (map guid_of program_and_id_pairs))
  /\ (remove_duplicates = false ->
      Permutation (map guid_of program_and_id_pairs)
        (map FeedEntry.guid (FeedGenerator.entries fg))).
Proof.
  intros H. apply create_inv in H. destruct H as [final [c [Hp [_ Hi]]]].
  apply create_items_guids in Hi. simpl in Hi.
  apply create_pairs_inv in Hp. destruct Hp as [sorted_pairs [Hperm Hfinal]].
  assert (Hsub : subsequence final sorted_pairs).
  { subst final. destruct remove_duplicates.
    - rewrite create_unique_pairs_unfold. apply unique_from_subsequence.
    - clear. induction sorted_pairs; constructor; assumption. }
  split; [| split].
  - rewrite <- (length_map FeedEntry.guid), Hi, length_map.
    rewrite (Permutation_length Hperm). apply subsequence_length. exact Hsub.
  - intros g Hg. rewrite Hi in Hg. apply in_map_iff in Hg.
    destruct Hg as [x [<- Hx]]. apply in_map.
    apply (Permutation_in _ (Permutation_sym Hperm)).
    apply (subsequence_incl _ _ Hsub). exact Hx.
  - intros ->. subst final. rewrite Hi. apply Permutation_map. exact Hperm.
Qed.

(** Two episodes of one datetime, kept both without duplicate suppression. *)
Lemma create_entries_from_input_witness :
  exists fg,
    create Examples.tbs_world Examples.creator
      [(Examples.ep_a, Examples.oid1); (Examples.ep_b, Examples.oid2)]
      None None false false = Ok fg
    /\ Permutation
         (map guid_of [(Examples.ep_a, Examples.oid1); (Examples.ep_b, Examples.oid2)])
         (map FeedEntry.guid (FeedGenerator.entries fg)).
Proof.
  eexists. split; [reflexivity |].
  apply (proj2 (proj2 (create_entries_from_input Examples.tbs_world Examples.creator
                         [(Examples.ep_a, Examples.oid1); (Examples.ep_b, Examples.oid2)]
                         None None false false _ eq_refl))).
  reflexivity.
Defined.

(** ** What the sort gives the later steps *)

Lemma value_ltb_ok_sym (a b : Value.value) (r : bool) :
  Value.ltb a b = Ok r -> exists r', Value.ltb b a = Ok r'.
Proof.
  destruct a as [| x | x | d], b as [| y | y | e]; simpl; try discriminate;
    try (intros _; eexists; reflexivity).
  unfold Datetime.ltb.
  destruct (Datetime.instant d), (Datetime.instant e); try discriminate;
    intros _; eexists; reflexivity.
Qed.

Lemma value_not_above_antisym (a b : Value.value) :
  not_above a b -> not_above b a -> Value.eqb a b = true.
Proof.
  unfold not_above.
  destruct a as [| x | x | d], b as [| y | y | e]; cbn [Value.ltb Value.eqb];
    try discriminate.
  - intros H1 H2. injection H1 as H1. injection H2 as H2. lia.
  - intros H1 H2. injection H1 as H1. injection H2 as H2.
    unfold String.ltb in H1, H2. apply String.eqb_eq.
    rewrite (String.compare_antisym y x) in H1.
    destruct (String.compare x y) eqn:E; simpl in *; try discriminate.
    apply String.compare_eq_iff. exact E.
  - intros H1 H2.
    apply datetime_ltb_cases in H1. apply datetime_ltb_cases in H2.
    unfold Datetime.eqb.
    destruct H1 as [[E1 [E2 H1]] | [i [j [E1 [E2 H1]]]]];
      destruct H2 as [[E3 [E4 H2]] | [k [l [E3 [E4 H2]]]]];
      try congruence; rewrite E3, E4.
    + unfold below in H1, H2.
      rewrite (lex_compare_antisym (Datetime.fields e) (Datetime.fields d)) in H1.
      destruct (Datetime.lex_compare (Datetime.fields d) (Datetime.fields e));
        simpl in *; congruence.
    + assert (i = l) by congruence. assert (j = k) by congruence. lia.
Qed.

(** Equal values that can be ordered are not above each other. *)
Lemma value_eqb_not_above (a b : Value.value) (r : bool) :
  Value.eqb a b = true -> Value.ltb b a = Ok r -> not_above b a.
Proof.
  intros Heq Hr. unfold not_above.
  destruct (value_ltb_ok_sym _ _ _ Hr) as [r' Hr'].
  destruct r'; [| exact Hr'].
  exfalso. apply (value_eqb_not_below a b Heq Hr').
Qed.

Section SortedOutput.

Context {A : Type} (key : A -> Value.value).

Lemma stable_sort_ascending (l s : list (Value.value * A)) :
  Builtins.stable_sort l = Ok s -> StronglySorted ascending s.
Proof.
  revert s. induction l as [| kx l IH]; simpl; intros s H.
  - injection H as <-. constructor.
  - bind_inv H. apply (insert_ascending kx a s (IH a Ha) H).
Qed.

(** Whenever [sorted] returns, its result is in the requested order. *)
Lemma sorted_in_order (reverse : bool) (l s : list A) :
  Builtins.sorted key reverse l = Ok s ->
  StronglySorted (in_order key reverse) s.
Proof.
  unfold Builtins.sorted. fold (decorate key). intros H.
  bind_inv H. injection H as <-.
  pose proof (stable_sort_ascending _ _ Ha) as Hsorted.
  pose proof (stable_sort_permutation _ _ Ha) as Hperm.
  destruct reverse.
  - assert (Hdec : Forall (decorated key) (rev a)).
    { apply (Permutation_Forall (Permutation_rev a)).
      apply (Permutation_Forall Hperm).
      apply (Permutation_Forall (Permutation_rev (map (decorate key) l))).
      apply Forall_decorated. }
    apply (StronglySorted_undecorate key (fun x y => not_above y x) (rev a) Hdec).
    apply (StronglySorted_rev ascending a Hsorted).
  - assert (Hdec : Forall (decorated key) a).
    { apply (Permutation_Forall Hperm). apply Forall_decorated. }
    apply (StronglySorted_undecorate key not_above a Hdec). exact Hsorted.
Qed.

(** Between two elements with equal keys of a list in order, every key is
    equal to theirs. *)
Lemma in_order_squeeze (reverse : bool) (p y u : A) :
  in_order key reverse p y -> in_order key reverse y u ->
  in_order key reverse p u ->
  Value.eqb (key p) (key u) = true ->
  Value.eqb (key p) (key y) = true.
Proof.
  unfold in_order. destruct reverse; intros Hpy Hyu Hpu Heq.
  - (* descending: key u <= key y <= key p *)
    apply value_not_above_antisym; [| exact Hpy].
    apply (value_not_above_trans (key p) (key u) (key y)); [| exact Hyu].
    apply (value_eqb_not_above (key u) (key p) false); [| exact Hpu].
    rewrite value_eqb_sym. exact Heq.
  - (* ascending: key p <= key y <= key u *)
    apply value_not_above_antisym; [exact Hpy |].
    apply (value_not_above_trans (key y) (key u) (key p)); [exact Hyu |].
    apply (value_eqb_not_above (key p) (key u) false Heq Hpu).
Qed.

Lemma subsequence_StronglySorted (R : A -> A -> Prop) (l1 l2 : list A) :
  subsequence l1 l2 -> StronglySorted R l2 -> StronglySorted R l1.
Proof.
  induction 1 as [| x l1 l2 Hsub IH | x l1 l2 Hsub IH]; intros Hs.
  - constructor.
  - apply StronglySorted_inv in Hs. destruct Hs as [Hs Hx].
    constructor; [apply IH; exact Hs |].
    apply Forall_forall. intros y Hy. rewrite Forall_forall in Hx.
    apply Hx. apply (subsequence_incl _ _ Hsub). exact Hy.
  - apply StronglySorted_inv in Hs. apply IH. apply Hs.
Qed.

Lemma StronglySorted_last (R : A -> A -> Prop) (l : list A) (x : A) :
  StronglySorted R (l ++ [x]) -> Forall (fun y => R y x) l.
Proof.
  induction l as [| y l IH]; simpl; intros H; [constructor |].
  apply StronglySorted_inv in H. destruct H as [Hs Hy].
  constructor; [| apply IH; exact Hs].
  apply Forall_app in Hy. destruct Hy as [_ Hy].
  apply Forall_inv in Hy. exact Hy.
Qed.

End SortedOutput.

Lemma differs_previous_key (sort_by : string) (pd pe : Value.value) (x : pair) :
  differs pd pe x = true ->
  Value.eqb (previous_key sort_by pd pe) (sort_key sort_by x) = false.
Proof.
  unfold differs, Value.neb, previous_key, sort_key, Program.getattr.
  intros H. apply andb_true_iff in H. destruct H as [Hd He].
  apply negb_true_iff in Hd, He.
  destruct (sort_by =? "episode_id")%string; assumption.
Qed.

Lemma previous_key_of (sort_by : string) (p : pair) :
  previous_key sort_by (datetime_of p) (episode_id_of p) = sort_key sort_by p.
Proof.
  unfold previous_key, sort_key, Program.getattr.
  destruct (sort_by =? "episode_id")%string; reflexivity.
Qed.

(** After a pair [p] of a list in order, the pass keeps pairs of distinct
    keys, none of them with the key of [p]. *)
Lemma unique_from_distinct_keys (sort_by : string) (reverse : bool) (l : list pair) :
  forall p : pair,
    StronglySorted (in_order (sort_key sort_by) reverse) (p :: l) ->
    distinct_keys sort_by (unique_from (datetime_of p) (episode_id_of p) l)
    /\ Forall (fun u => Value.eqb (sort_key sort_by p) (sort_key sort_by u) = false)
         (unique_from (datetime_of p) (episode_id_of p) l).
Proof.
  induction l as [| y rest IH]; intros p Hs; simpl.
  - split; constructor.
  - apply StronglySorted_inv in Hs. destruct Hs as [Hrest Hp].
    apply Forall_cons_iff in Hp. destruct Hp as [Hpy Hp].
    destruct (IH y Hrest) as [Hdistinct Hy].
    apply StronglySorted_inv in Hrest. destruct Hrest as [_ Hyrest].
    assert (Hsq : forall u, In u rest ->
              Value.eqb (sort_key sort_by y) (sort_key sort_by u) = false ->
              Value.eqb (sort_key sort_by p) (sort_key sort_by y) = false ->
              Value.eqb (sort_key sort_by p) (sort_key sort_by u) = false).
    { intros u Hu Hyu Hpy'.
      destruct (Value.eqb (sort_key sort_by p) (sort_key sort_by u)) eqn:E;
        [| reflexivity].
      rewrite Forall_forall in Hp, Hyrest.
      rewrite (in_order_squeeze (sort_key sort_by) reverse p y u
                 Hpy (Hyrest u Hu) (Hp u Hu) E) in Hpy'.
      discriminate. }
    assert (Hin : forall u, In u (unique_from (datetime_of y) (episode_id_of y) rest) ->
                            In u rest).
    { apply subsequence_incl. apply unique_from_subsequence. }
    destruct (differs (datetime_of p) (episode_id_of p) y) eqn:Hkeep.
    + pose proof (differs_previous_key sort_by _ _ _ Hkeep) as Hne.
      rewrite previous_key_of in Hne.
      split.
      * constructor; assumption.
      * constructor; [exact Hne |].
        rewrite Forall_forall in Hy |- *. intros u Hu.
        apply Hsq; auto.
    + split; [exact Hdistinct |].
      rewrite Forall_forall in Hy |- *. intros u Hu.
      destruct (Value.eqb (sort_key sort_by p) (sort_key sort_by u)) eqn:E;
        [| reflexivity].
      rewrite Forall_forall in Hp, Hyrest.
      pose proof (in_order_squeeze (sort_key sort_by) reverse p y u
                    Hpy (Hyrest u (Hin u Hu)) (Hp u (Hin u Hu)) E) as Hpy'.
      rewrite <- (Hy u Hu). symmetry.
      apply (value_eqb_trans (sort_key sort_by y) (sort_key sort_by p));
        [rewrite value_eqb_sym; exact Hpy' | exact E].
Qed.

(** X21: with duplicate suppression, no two pairs that survive share the
    value of the attribute the sort ran on: sorted by datetime the feed has
    at most one episode per datetime, sorted by episode id at most one per
    episode id. *)
Theorem create_pairs_distinct_keys (program_and_id_pairs : list pair)
  (sort_by : option string) (from_oldest : bool) (final : list pair) :
  create_pairs program_and_id_pairs sort_by from_oldest true = Ok final ->
  exists sort_by' : string,
    create_sort_by program_and_id_pairs sort_by = Ok sort_by'
    /\ distinct_keys sort_by' final.
Proof.
  unfold create_pairs, create_sorted. intros H.
  bind_inv H. bind_inv H. injection H as <-.
  exists a. split; [exact Ha |].
  apply sorted_in_order in Ha0. fold (sort_key a) in Ha0.
  rewrite create_unique_pairs_unfold.
  destruct a0 as [| p rest]; simpl; [constructor |].
  destruct (unique_from_distinct_keys a (negb from_oldest) rest p Ha0)
    as [Hdistinct Hp].
  destruct (differs Value.VNone Value.VNone p); [| exact Hdistinct].
  constructor; assumption.
Qed.

(** Three episodes, two of one datetime, newest first. *)
Lemma create_pairs_distinct_keys_witness :
  exists final sort_by',
    create_pairs
      [(Examples.ep_a, Examples.oid1); (Examples.ep_d, Examples.oid3);
       (Examples.ep_b, Examples.oid2)] None false true = Ok final
    /\ create_sort_by
         [(Examples.ep_a, Examples.oid1); (Examples.ep_d, Examples.oid3);
          (Examples.ep_b, Examples.oid2)] None = Ok sort_by'
    /\ distinct_keys sort_by' final.
Proof.
  eexists.
  destruct (create_pairs_distinct_keys
              [(Examples.ep_a, Examples.oid1); (Examples.ep_d, Examples.oid3);
               (Examples.ep_b, Examples.oid2)] None false _ eq_refl)
    as [sb H].
  exists sb. split; [reflexivity | exact H].
Defined.

(** X22: the record the channel is derived from is the most recent one of
    the surviving sequence in the order of the sort attribute: newest first
    it is the first pair and no other pair has a key above its key; oldest
    first it is the last pair and again no other pair has a key above its
    key. *)
Theorem create_channel_latest
  (program_and_id_pairs : list pair) (sort_by : option string)
  (from_oldest remove_duplicates : bool) (final : list pair)
  (channel : PodcastChannel.t) :
  create_pairs program_and_id_pairs sort_by from_oldest remove_duplicates
  = Ok final ->
  create_channel final None from_oldest = Ok channel ->
  exists (sort_by' : string) (latest : pair) (others : list pair),
    create_sort_by program_and_id_pairs sort_by = Ok sort_by'
    /\ channel = PodcastChannel.from_program (fst latest)
    /\ final = (if from_oldest then others ++ [latest] else latest :: others)%list
    /\ Forall (fun y => not_above (sort_key sort_by' y) (sort_key sort_by' latest))
         others.
Proof.
  unfold create_pairs, create_sorted. intros H Hc.
  bind_inv H. bind_inv H. injection H as <-.
  apply sorted_in_order in Ha0. fold (sort_key a) in Ha0.
  assert (Hsub : subsequence
                   (if remove_duplicates then create_unique_pairs a0 else a0) a0).
  { destruct remove_duplicates.
    - rewrite create_unique_pairs_unfold. apply unique_from_subsequence.
    - clear. induction a0; constructor; assumption. }
  pose proof (subsequence_StronglySorted _ _ _ Hsub Ha0) as Hs.
  revert Hc Hs. generalize (if remove_duplicates then create_unique_pairs a0 else a0).
  intros final Hc Hs. unfold create_channel in Hc. bind_inv Hc.
  injection Hc as <-. exists a, a1.
  destruct from_oldest; simpl in *.
  - unfold index_last in Ha1.
    destruct (rev final) as [| z r] eqn:Er; simpl in Ha1; [discriminate |].
    injection Ha1 as ->.
    assert (Hfinal : final = (rev r ++ [a1])%list).
    { rewrite <- (rev_involutive final), Er. reflexivity. }
    exists (rev r). repeat split; try assumption.
    rewrite Hfinal in Hs. apply StronglySorted_last in Hs. exact Hs.
  - destruct final as [| z r]; simpl in Ha1; [discriminate |].
    injection Ha1 as ->.
    exists r. repeat split; try assumption.
    apply StronglySorted_inv in Hs. apply Hs.
Qed.

(** Two episodes, oldest first: the channel is that of the later one. *)
Lemma create_channel_latest_witness :
  exists (sort_by' : string) (latest : pair) (others : list pair),
    create_sort_by
      [(Examples.ep_d, Examples.oid3); (Examples.ep_a, Examples.oid1)] None
    = Ok sort_by'
    /\ PodcastChannel.from_program Examples.ep_d
       = PodcastChannel.from_program (fst latest)
    /\ [(Examples.ep_a, Examples.oid1); (Examples.ep_d, Examples.oid3)]
       = (others ++ [latest])%list
    /\ Forall (fun y => not_above (sort_key sort_by' y) (sort_key sort_by' latest))
         others.
Proof.
  apply (create_channel_latest
           [(Examples.ep_d, Examples.oid3); (Examples.ep_a, Examples.oid1)]
           None true true
           [(Examples.ep_a, Examples.oid1); (Examples.ep_d, Examples.oid3)]
           (PodcastChannel.from_program Examples.ep_d)).
  - reflexivity.
  - reflexivity.
Defined.

(** ** When the item mapper raises [IndexError] *)




